(** * xoscar: the indigen actor-pool process lifecycle

    A shallow embedding of [python/xoscar/backends/indigen/pool.py]:
    the address allocator, the worker bootstrap, the startup
    rendezvous, the shutdown escalation, recovery and the topology
    operations of [MainActorPool].

    Python values are embedded as follows.
    - [int] is [Z]; [str] is [string], read as ASCII text;
      [list] is [list]; [None]-able values are [option].
    - A raised exception is the [Raise] outcome of [result]; stateful
      methods are functions [S -> S * result A] (the monad [M S]).
    - [dict]s that are only looked up, set and deleted by key
      ([os.environ], [sub_processes]) are [gmap]s; [dict]s whose
      iteration order the code relies on (the pool table, the
      allocated-actor registry) are association lists in insertion
      order.
    - What the operating system and the worker processes answer
      (spawn outcomes, fresh indices) is passed in as an argument. *)

From Stdlib Require Import ZArith String Ascii List Lia DecimalString.
From Stdlib Require DecimalPos DecimalZ.
From stdpp Require Import base gmap strings list.

Open Scope Z_scope.

(** ** Exceptions and outcomes *)

Inductive exc_type :=
  | AssertionError
  | ValueError
  | IndexError
  | KeyError
  | TypeError
  | AttributeError
  | OSError
  | UserError (code : nat).

#[global] Instance exc_type_eq_dec : EqDecision exc_type.
Proof. solve_decision. Defined.

(** [TracebackType]: the frames, innermost last. *)
Definition TracebackType := list string.

(** An exception instance with its [__traceback__]. *)
Record exn := Exn {
  exn_type : exc_type;
  exn_traceback : option TracebackType
}.

#[global] Instance exn_eq_dec : EqDecision exn.
Proof. solve_decision. Defined.

Definition new_exn (t : exc_type) : exn := Exn t None.

(** [BaseException.with_traceback(tb)]: sets [__traceback__], returns
    the exception. *)
Definition with_traceback (e : exn) (tb : option TracebackType) : exn :=
  Exn (exn_type e) tb.

Inductive result (A : Type) :=
  | Ok (a : A)
  | Raise (e : exn).
Arguments Ok {A} a.
Arguments Raise {A} e.

#[global] Instance result_ret : MRet result := fun A a => Ok a.
#[global] Instance result_bind : MBind result := fun A B f r =>
  match r with
  | Ok a => f a
  | Raise e => Raise e
  end.

Definition raise {A} (t : exc_type) : result A := Raise (new_exn t).

(** ** The Python builtins the module relies on *)

Module Py.

(** Truthiness of an optional list: [None] and [[]] are falsy. *)
Definition truthy_list {A} (l : option (list A)) : bool :=
  match l with
  | Some (_ :: _) => true
  | _ => false
  end.

(** Truthiness of an optional string. *)
Definition truthy_str (s : option string) : bool :=
  match s with
  | Some (String _ _) => true
  | _ => false
  end.

(** [len(l)] for a list that may be [None] is only evaluated on
    truthy lists in this module. *)
Definition len {A} (l : list A) : Z := Z.of_nat (length l).

(** [[x] * n]: empty when [n <= 0]. *)
Definition list_mul {A} (x : A) (n : Z) : list A := repeat x (Z.to_nat n).

(** [c in s] for a one-character needle. *)
Fixpoint contains (c : ascii) (s : string) : bool :=
  match s with
  | EmptyString => false
  | String d s' => if Ascii.eqb c d then true else contains c s'
  end.

(** [s.rsplit(c, 1)]: the text before and after the last [c];
    [None] stands for the one-element list Python returns when [c]
    does not occur. *)
Fixpoint rsplit1 (c : ascii) (s : string) : option (string * string) :=
  match s with
  | EmptyString => None
  | String d s' =>
      match rsplit1 c s' with
      | Some (h, t) => Some (String d h, t)
      | None => if Ascii.eqb c d then Some (EmptyString, s') else None
      end
  end.

(** ASCII whitespace as [str.strip] and [int] see it. *)
Definition is_space (c : ascii) : bool :=
  let n := nat_of_ascii c in
  ((9 <=? n) && (n <=? 13) || (28 <=? n) && (n <=? 32))%nat.

Definition is_digit (c : ascii) : bool :=
  let n := nat_of_ascii c in ((48 <=? n) && (n <=? 57))%nat.

Definition digit_val (c : ascii) : Z := Z.of_nat (nat_of_ascii c) - 48.

Fixpoint lstrip (l : list ascii) : list ascii :=
  match l with
  | c :: l' => if is_space c then lstrip l' else l
  | [] => []
  end.

Definition strip (l : list ascii) : list ascii :=
  rev (lstrip (rev (lstrip l))).

(** Decimal digits with single underscores between digits. *)
Fixpoint digits (acc : Z) (after_digit : bool) (l : list ascii) : option Z :=
  match l with
  | [] => if after_digit then Some acc else None
  | c :: l' =>
      if is_digit c then digits (10 * acc + digit_val c) true l'
      else if Ascii.eqb c "_" then
        (if after_digit then digits acc false l' else None)
      else None
  end.

(** [int(s)] in base 10 for ASCII text: surrounding whitespace, an
    optional sign, digits; [None] is [ValueError]. *)
Definition int_of_str (s : string) : option Z :=
  match strip (list_ascii_of_string s) with
  | c :: l =>
      if Ascii.eqb c "-" then Z.opp <$> digits 0 false l
      else if Ascii.eqb c "+" then digits 0 false l
      else digits 0 false (c :: l)
  | [] => None
  end.

(** [str(n)], which is also what an f-string does to an [int]. *)
Definition str_of_int (z : Z) : string :=
  NilZero.string_of_int (Z.to_int z).

End Py.

(** ** [MainActorPool.get_external_addresses] *)

(** The second argument of [zip]: [itertools.repeat("")] or a list of
    prefixes. *)
Inductive prefix_iter :=
  | PrefixRepeat (p : string)
  | PrefixList (ps : list string).

(** [zip(ports, prefix_iter)]: stops at the shorter argument. *)
Fixpoint zip_prefix (ports : list Z) (it : prefix_iter) : list (Z * string) :=
  match it with
  | PrefixRepeat p => map (fun port => (port, p)) ports
  | PrefixList ps =>
      match ports, ps with
      | port :: ports', p :: ps' => (port, p) :: zip_prefix ports' (PrefixList ps')
      | _, _ => []
      end
  end.

(** [f"{prefix}{host}:{port}"] *)
Definition format_address (prefix host : string) (port : Z) : string :=
  prefix +:+ host +:+ ":" +:+ Py.str_of_int port.

(** [f"{scheme}://" if scheme else ""] *)
Definition scheme_prefix (scheme : option string) : string :=
  if Py.truthy_str scheme
  then default EmptyString scheme +:+ "://"
  else EmptyString.

Definition get_external_addresses
    (address : string) (n_process : option Z)
    (ports : option (list Z)) (schemes : option (list (option string)))
  : result (list string) :=
  match n_process with
  | None => raise AssertionError
  | Some n_process =>
      '(host, port, sub_ports) ←
        (if Py.contains ":" address then
           match Py.rsplit1 ":" address with
           | None => raise ValueError
           | Some (host, port_str) =>
               match Py.int_of_str port_str with
               | None => raise ValueError
               | Some port =>
                   if Py.truthy_list ports then
                     if negb (Py.len (default [] ports) =? n_process)
                     then raise ValueError
                     else Ok (host, port, default [] ports)
                   else Ok (host, port, Py.list_mul 0 n_process)
               end
           end
         else
           let host := address in
           if Py.truthy_list ports
              && negb (Py.len (default [] ports) =? n_process + 1)
           then raise ValueError
           else
             let ports :=
               if negb (Py.truthy_list ports)
               then Py.list_mul 0 (n_process + 1)
               else default [] ports in
             match ports with
             | [] => raise IndexError
             | port :: sub_ports => Ok (host, port, sub_ports)
             end);
      let prefix_iter :=
        if negb (Py.truthy_list schemes)
        then PrefixRepeat EmptyString
        else PrefixList (map scheme_prefix (default [] schemes)) in
      Ok (map (fun '(port, prefix) => format_address prefix host port)
              (zip_prefix (port :: sub_ports) prefix_iter))
  end.

(** Proof device: what the allocator makes of the base address and
    the port list before any prefix is applied: the host, the main
    port and the worker ports. *)
Definition host_and_ports (address : string) (n_process : Z)
    (ports : option (list Z)) : result (string * Z * list Z) :=
  if Py.contains ":" address then
    match Py.rsplit1 ":" address with
    | None => raise ValueError
    | Some (host, port_str) =>
        match Py.int_of_str port_str with
        | None => raise ValueError
        | Some port =>
            if Py.truthy_list ports then
              if negb (Py.len (default [] ports) =? n_process)
              then raise ValueError
              else Ok (host, port, default [] ports)
            else Ok (host, port, Py.list_mul 0 n_process)
        end
    end
  else
    if Py.truthy_list ports && negb (Py.len (default [] ports) =? n_process + 1)
    then raise ValueError
    else
      match (if negb (Py.truthy_list ports)
             then Py.list_mul 0 (n_process + 1)
             else default [] ports) with
      | [] => raise IndexError
      | port :: sub_ports => Ok (address, port, sub_ports)
      end.

(** [MainActorPool.gen_internal_address]; [has_unix_server] is
    [hasattr(asyncio, "start_unix_server")]. *)
Definition gen_internal_address (has_unix_server : bool)
    (process_index : Z) (external_address : option string) : option string :=
  if has_unix_server
  then Some ("unixsocket:///" +:+ Py.str_of_int process_index)
  else external_address.

(** ** [SubpoolStatus] *)

Record SubpoolStatus := {
  status : option Z;
  external_addresses : option (list string);
  error : option exn;
  traceback : option TracebackType
}.

(** ** The Configuration Store *)

Module Conf.

(** One entry of the pool table: the dict [add_pool_conf] stores
    for a process index. *)
Record t := {
  label : option string;
  internal_address : option string;
  external_address : list string;
  env : option (gmap string string);
  modules : option (list string);
  suspend_sigint : option bool;
  use_uvloop : option bool;
  logging_conf : option (list (string * string));
  kwargs : option (list (string * string))
}.

Definition set_external_address (a : list string) (c : t) : t :=
  {| label := label c; internal_address := internal_address c;
     external_address := a; env := env c; modules := modules c;
     suspend_sigint := suspend_sigint c; use_uvloop := use_uvloop c;
     logging_conf := logging_conf c; kwargs := kwargs c |}.

End Conf.

(** Insertion-ordered [dict] with integer keys. *)
Section Dict.
Context {V : Type}.

Fixpoint dict_get (k : Z) (d : list (Z * V)) : option V :=
  match d with
  | [] => None
  | (k', v) :: d' => if decide (k = k') then Some v else dict_get k d'
  end.

(** [d[k] = v]: an existing key keeps its position. *)
Fixpoint dict_set (k : Z) (v : V) (d : list (Z * V)) : list (Z * V) :=
  match d with
  | [] => [(k, v)]
  | (k', v') :: d' =>
      if decide (k = k') then (k, v) :: d' else (k', v') :: dict_set k v d'
  end.

(** [del d[k]] *)
Fixpoint dict_del (k : Z) (d : list (Z * V)) : list (Z * V) :=
  match d with
  | [] => []
  | (k', v') :: d' =>
      if decide (k = k') then d' else (k', v') :: dict_del k d'
  end.
End Dict.

(** Modelled from the spec: [ActorPoolConfig] (module
    [xoscar.backends.config]) is not part of this file.  The spec
    describes the Store as an in-memory record mapping a process index
    to its [PoolProcessEntry], mutated only through its add, remove
    and reset operations; the table is kept in registration order. *)
Definition ActorPoolConfig := list (Z * Conf.t).

(** Modelled from the spec: [ActorPoolConfig.add_pool_conf] registers
    the entry of a process index. *)
Definition add_pool_conf (process_index : Z) (label internal_address : option string)
    (external_address : string) (env : option (gmap string string))
    (modules : option (list string)) (suspend_sigint use_uvloop : option bool)
    (logging_conf kwargs : option (list (string * string)))
    (c : ActorPoolConfig) : ActorPoolConfig :=
  dict_set process_index
    {| Conf.label := label; Conf.internal_address := internal_address;
       Conf.external_address := [external_address]; Conf.env := env;
       Conf.modules := modules; Conf.suspend_sigint := suspend_sigint;
       Conf.use_uvloop := use_uvloop; Conf.logging_conf := logging_conf;
       Conf.kwargs := kwargs |} c.

(** Modelled from the spec: [ActorPoolConfig.get_pool_config], the
    entry of a process index; a missing index is a [KeyError]. *)
Definition get_pool_config (c : ActorPoolConfig) (process_index : Z) : result Conf.t :=
  match dict_get process_index c with
  | Some conf => Ok conf
  | None => raise KeyError
  end.

(** Modelled from the spec: [ActorPoolConfig.get_process_indexes],
    the registered indices, oldest first. *)
Definition get_process_indexes (c : ActorPoolConfig) : list Z := map fst c.

(** Modelled from the spec: [ActorPoolConfig.get_process_index], the
    index whose entry carries the external address. *)
Fixpoint get_process_index (c : ActorPoolConfig) (external_address : string) : result Z :=
  match c with
  | [] => raise ValueError
  | (process_index, conf) :: c' =>
      if bool_decide (external_address ∈ Conf.external_address conf)
      then Ok process_index
      else get_process_index c' external_address
  end.

(** Modelled from the spec: [ActorPoolConfig.reset_pool_external_address]
    replaces the placeholder address of an entry by the resolved one. *)
Definition reset_pool_external_address (process_index : Z) (external_address : string)
    (c : ActorPoolConfig) : result ActorPoolConfig :=
  conf ← get_pool_config c process_index;
  Ok (dict_set process_index (Conf.set_external_address [external_address] conf) c).

(** Modelled from the spec: [ActorPoolConfig.remove_pool_config]
    deletes the entry of a process index. *)
Definition remove_pool_config (process_index : Z) (c : ActorPoolConfig)
  : result ActorPoolConfig :=
  _ ← get_pool_config c process_index;
  Ok (dict_del process_index c).

(** ** The main pool and its surroundings *)

(** A [multiprocessing.Process] handle, identified by its pid. *)
Definition Process := nat.

(** [CreateActorMessage] (module [xoscar.backends.message]); only its
    identity matters here. *)
Record CreateActorMessage := {
  message_id : nat;
  actor_id : string
}.

Inductive signal := SIGINT | SIGTERM | SIGKILL.

(** What is observable of the main process: the fields of
    [MainActorPool] the module touches, [os.environ], and which worker
    processes are running.  [stubborn] processes survive [SIGINT] and
    [SIGTERM].  [reaped] holds the handles whose [returncode] is set:
    a [join] has seen their process gone. *)
Record state := {
  self_external_address : string;
  _config : ActorPoolConfig;
  sub_processes : gmap string Process;
  _allocated_actors : gmap string (list (string * (string * CreateActorMessage)));
  _auto_recover : string;  (* "actor", "process", ... *)
  os_environ : gmap string string;
  alive : gset Process;
  stubborn : gset Process;
  reaped : gset Process
}.

Definition set_config (c : ActorPoolConfig) (s : state) : state :=
  {| self_external_address := self_external_address s; _config := c;
     sub_processes := sub_processes s; _allocated_actors := _allocated_actors s;
     _auto_recover := _auto_recover s; os_environ := os_environ s;
     alive := alive s; stubborn := stubborn s; reaped := reaped s |}.

Definition set_sub_processes (m : gmap string Process) (s : state) : state :=
  {| self_external_address := self_external_address s; _config := _config s;
     sub_processes := m; _allocated_actors := _allocated_actors s;
     _auto_recover := _auto_recover s; os_environ := os_environ s;
     alive := alive s; stubborn := stubborn s; reaped := reaped s |}.

Definition set_os_environ (m : gmap string string) (s : state) : state :=
  {| self_external_address := self_external_address s; _config := _config s;
     sub_processes := sub_processes s; _allocated_actors := _allocated_actors s;
     _auto_recover := _auto_recover s; os_environ := m;
     alive := alive s; stubborn := stubborn s; reaped := reaped s |}.

Definition set_alive (a : gset Process) (s : state) : state :=
  {| self_external_address := self_external_address s; _config := _config s;
     sub_processes := sub_processes s; _allocated_actors := _allocated_actors s;
     _auto_recover := _auto_recover s; os_environ := os_environ s;
     alive := a; stubborn := stubborn s; reaped := reaped s |}.

Definition set_reaped (r : gset Process) (s : state) : state :=
  {| self_external_address := self_external_address s; _config := _config s;
     sub_processes := sub_processes s; _allocated_actors := _allocated_actors s;
     _auto_recover := _auto_recover s; os_environ := os_environ s;
     alive := alive s; stubborn := stubborn s; reaped := r |}.

(** What the main process does to the outside, and the mutations of
    its two tables. *)
Inductive event :=
  | EvSpawn (process_index : Z) (start_method : option string)
  | EvSignal (sig : signal) (p : Process)
  | EvJoin (p : Process) (timeout : Z)
  | EvAddPoolConf (process_index : Z)
  | EvResetAddress (process_index : Z) (external_address : string)
  | EvRemovePoolConf (process_index : Z)
  | EvAttach (external_address : string) (p : Process)
  | EvDetach (external_address : string)
  | EvSyncConfig (content : ActorPoolConfig)
  | EvCall (address : string) (message : CreateActorMessage).

(** ** State, exceptions and a history *)

Section Monad.
Context {S E : Type}.

(** The current state and, oldest first, every event with the state
    it happened in. *)
Record world := World {
  now : S;
  history : list (S * E)
}.

Definition M (A : Type) : Type := world → world * result A.

Definition ret {A} (a : A) : M A := fun w => (w, Ok a).

Definition bind {A B} (m : M A) (f : A → M B) : M B := fun w =>
  match m w with
  | (w', Ok a) => f a w'
  | (w', Raise e) => (w', Raise e)
  end.

Definition lift {A} (r : result A) : M A := fun w => (w, r).

Definition gets {A} (f : S → A) : M A := fun w => (w, Ok (f (now w))).

Definition modify (f : S → S) : M unit := fun w =>
  (World (f (now w)) (history w), Ok tt).

Definition emit (e : E) : M unit := fun w =>
  (World (now w) (history w ++ [(now w, e)]), Ok tt).

(** What a task's [await] will give: its value or its exception. *)
Definition attempt {A} (m : M A) : M (result A) := fun w =>
  match m w with
  | (w', r) => (w', Ok r)
  end.

(** [try: body finally: fin] *)
Definition try_finally {A} (body : M A) (fin : M unit) : M A :=
  bind (attempt body) (fun r => bind fin (fun _ => lift r)).

(** [try: body except exc: handler(e)] for the given exception
    types. *)
Definition try_except {A} (body : M A) (catches : exn → bool)
    (handler : exn → M A) : M A :=
  bind (attempt body) (fun r =>
    match r with
    | Ok a => ret a
    | Raise e => if catches e then handler e else lift (Raise e)
    end).

(** [for x in l: body(x)] *)
Fixpoint for_each {A} (l : list A) (body : A → M unit) : M unit :=
  match l with
  | [] => ret tt
  | x :: l' => bind (body x) (fun _ => for_each l' body)
  end.
End Monad.

Arguments world : clear implicits.
Arguments M : clear implicits.

#[global] Instance M_ret {S E} : MRet (M S E) := @ret S E.
#[global] Instance M_bind {S E} : MBind (M S E) := fun A B f m => bind m f.

(** The monad of the main process. *)
Abbreviation MainM := (M state event).

(** ** Processes and signals *)

(** A signal reaches a process: [SIGKILL] always ends it, the other
    two end it unless it is [stubborn]. *)
Definition deliver (sig : signal) (p : Process) (s : state) : state :=
  match sig with
  | SIGKILL => set_alive (alive s ∖ {[p]}) s
  | _ => if bool_decide (p ∈ stubborn s) then s
         else set_alive (alive s ∖ {[p]}) s
  end.

(** [os.kill(pid, sig)]: [OSError] when there is no such process. *)
Definition os_kill (p : Process) (sig : signal) : MainM unit :=
  emit (EvSignal sig p);;
  running ← gets (fun s => bool_decide (p ∈ alive s));
  if running : bool
  then modify (deliver sig p)
  else lift (raise OSError).

(** [Popen._send_signal] of [multiprocessing], which [terminate] and
    [kill] go through: [if self.returncode is None: os.kill(self.pid,
    sig)].  A handle that has seen its process gone sends nothing. *)
Definition _send_signal (p : Process) (sig : signal) : MainM unit :=
  seen ← gets (fun s => bool_decide (p ∈ reaped s));
  if seen : bool then ret tt
  else emit (EvSignal sig p);; modify (deliver sig p).

(** [process.terminate()] *)
Definition Process_terminate (p : Process) : MainM unit :=
  _send_signal p SIGTERM.

(** [process.kill()] *)
Definition Process_kill (p : Process) : MainM unit :=
  _send_signal p SIGKILL.

(** [Popen.poll] of [multiprocessing]: once the process is gone the
    handle's [returncode] is set. *)
Definition poll (p : Process) (s : state) : state :=
  if bool_decide (p ∈ alive s) then s
  else set_reaped ({[p]} ∪ reaped s) s.

(** [process.join(timeout)]: the wait ends with a [poll]. *)
Definition Process_join (p : Process) (timeout : Z) : MainM unit :=
  emit (EvJoin p timeout);; modify (poll p).

(** ** [_pre_set_env_in_main] *)

(** [bool(int(os.getenv("XOSCAR_PRE_SET_ENV", 0)))] *)
Definition enable_pre_set_env (environ : gmap string string) : result bool :=
  match environ !! "XOSCAR_PRE_SET_ENV"%string with
  | None => Ok false
  | Some v =>
      match Py.int_of_str v with
      | None => raise ValueError
      | Some n => Ok (negb (n =? 0))
      end
  end.

(** Truthiness of the [env] mapping. *)
Definition truthy_env (env : option (gmap string string)) : bool :=
  match env with
  | None => false
  | Some m => negb (bool_decide (m = ∅))
  end.

(** [os.environ.update(env)] *)
Definition environ_update (env : option (gmap string string))
    (environ : gmap string string) : gmap string string :=
  default ∅ env ∪ environ.

(** The context manager around one body, when no other launch is in
    flight (the lock is free on entry and released on exit). *)
Definition _pre_set_env_in_main {A} (env : option (gmap string string))
    (body : MainM A) : MainM A :=
  environ ← gets os_environ;
  enable ← lift (enable_pre_set_env environ);
  if negb enable || negb (truthy_env env) then body
  else
    global_environ ← gets os_environ;
    try_finally
      (modify (fun s => set_os_environ (environ_update env (os_environ s)) s);;
       body)
      (modify (set_os_environ global_environ)).

(** ** Launching a worker *)

(** [start_pool_in_process]: [Process.start()] and the blocking read
    of the status queue.  [outcome] is what they give: the handle and
    the worker's status, or the exception of a failed start. *)
Definition start_pool_in_process (outcome : result (Process * SubpoolStatus))
    (process_index : Z) (start_method : option string)
  : MainM (Process * SubpoolStatus) :=
  emit (EvSpawn process_index start_method);;
  match outcome with
  | Ok (process, process_status) =>
      (* a new handle: its returncode is None *)
      modify (fun s => set_reaped (reaped s ∖ {[process]})
                         (set_alive ({[process]} ∪ alive s) s));;
      ret (process, process_status)
  | Raise e => lift (Raise e)
  end.

(** [MainActorPool.start_sub_pool] *)
Definition start_sub_pool (outcome : result (Process * SubpoolStatus))
    (actor_pool_config : ActorPoolConfig) (process_index : Z)
    (start_method : option string) : MainM (Process * SubpoolStatus) :=
  conf ← lift (get_pool_config actor_pool_config process_index);
  _pre_set_env_in_main (Conf.env conf)
    (start_pool_in_process outcome process_index start_method).

(** The loop of [wait_sub_pools_ready]; [processes], [ext_addresses]
    and [err] (the source's [error]) are its three accumulators. *)
Fixpoint wait_sub_pools_ready_loop
    (create_pool_tasks : list (result (Process * SubpoolStatus)))
    (processes : list Process) (ext_addresses : list (option (list string)))
    (err : option exn)
  : result (list Process * list (option (list string)) * option exn) :=
  match create_pool_tasks with
  | [] => Ok (processes, ext_addresses, err)
  | task :: tasks =>
      '(process, st) ← task;
      let processes := processes ++ [process] in
      if bool_decide (status st = Some 1) then
        match error st with
        | None => raise AttributeError
        | Some e =>
            wait_sub_pools_ready_loop tasks processes ext_addresses
              (Some (with_traceback e (traceback st)))
        end
      else
        wait_sub_pools_ready_loop tasks processes
          (ext_addresses ++ [external_addresses st]) err
  end.

(** [MainActorPool.wait_sub_pools_ready]; each task is given by what
    awaiting it yields.  An exception instance is truthy, so
    [if error:] asks whether one was recorded. *)
Definition wait_sub_pools_ready
    (create_pool_tasks : list (result (Process * SubpoolStatus)))
  : MainM (list Process * list (option (list string))) :=
  '(processes, ext_addresses, err) ←
    lift (wait_sub_pools_ready_loop create_pool_tasks [] [] None);
  match err with
  | Some e =>
      for_each processes Process_kill;;
      lift (Raise e)
  | None => ret (processes, ext_addresses)
  end.

(** ** Topology operations *)

(** [l[-1]] *)
Definition subscript_last {A} (l : list A) : result A :=
  match last l with
  | Some a => Ok a
  | None => raise IndexError
  end.

(** [l[0]] for a value that may be [None]. *)
Definition subscript_first {A} (l : option (list A)) : result A :=
  match l with
  | None => raise TypeError
  | Some [] => raise IndexError
  | Some (a :: _) => Ok a
  end.

(** Modelled from the spec: [MainActorPoolBase.attach_sub_process]
    (module [xoscar.backends.pool]) records the handle of a launched
    worker in [sub_processes] under its external address. *)
Definition attach_sub_process (external_address : string) (process : Process)
  : MainM unit :=
  emit (EvAttach external_address process);;
  modify (fun s => set_sub_processes (<[external_address := process]> (sub_processes s)) s).

(** Modelled from the spec: [handle_control_command] on a
    sync-configuration message hands the current Store to the pool's
    message handling, which accepts it. *)
Definition handle_control_command_sync_config : MainM unit :=
  content ← gets _config;
  emit (EvSyncConfig content).

(** [MainActorPool.append_sub_pool].  [has_unix_server] is the
    platform test of [gen_internal_address]; [process_index] is what
    [next(process_index_gen(external_address))] yields; [outcome] is
    the outcome of the launch. *)
Definition append_sub_pool
    (has_unix_server : bool) (process_index : Z)
    (outcome : result (Process * SubpoolStatus))
    (label internal_address external_address : option string)
    (env : option (gmap string string)) (modules : option (list string))
    (suspend_sigint use_uvloop : option bool)
    (logging_conf : option (list (string * string)))
    (start_method : option string)
    (kwargs : option (list (string * string)))
  : MainM string :=
  self_address ← gets self_external_address;
  external_address ← lift (
    if Py.truthy_str external_address then Ok (default EmptyString external_address)
    else
      addresses ← get_external_addresses self_address (Some 1) None None;
      subscript_last addresses);
  actor_pool_config ← gets _config;
  last_process_index ← lift (subscript_last (get_process_indexes actor_pool_config));
  last_conf ← lift (get_pool_config actor_pool_config last_process_index);
  let last_logging_conf := Conf.logging_conf last_conf in
  let last_use_uv_loop := Conf.use_uvloop last_conf in
  let _logging_conf :=
    if Py.truthy_list logging_conf then logging_conf else last_logging_conf in
  let _use_uv_loop :=
    match use_uvloop with
    | Some _ => use_uvloop
    | None => last_use_uv_loop
    end in
  let internal_address :=
    if Py.truthy_str internal_address then internal_address
    else gen_internal_address has_unix_server process_index (Some external_address) in
  emit (EvAddPoolConf process_index);;
  modify (fun s => set_config
    (add_pool_conf process_index label internal_address external_address env
       modules suspend_sigint _use_uv_loop _logging_conf kwargs (_config s)) s);;
  '(process, process_status) ←
    _pre_set_env_in_main env
      (start_pool_in_process outcome process_index start_method);
  resolved ← lift (subscript_first (external_addresses process_status));
  emit (EvResetAddress process_index resolved);;
  config ← gets _config;
  config ← lift (reset_pool_external_address process_index resolved config);
  modify (set_config config);;
  resolved ← lift (subscript_first (external_addresses process_status));
  attach_sub_process resolved process;;
  handle_control_command_sync_config;;
  (* The actual port will return in process_status. *)
  lift (subscript_first (external_addresses process_status)).

(** [MainActorPool.kill_sub_pool]; [_is_windows] is the module's
    platform flag. *)
Definition kill_sub_pool (_is_windows : bool) (process : Process) (force : bool)
  : MainM unit :=
  (if negb force then
     (* must shutdown gracefully, or subprocess created by model will not exit *)
     (if negb _is_windows then
        try_except (os_kill process SIGINT)
          (fun e => match exn_type e with OSError => true | _ => false end)
          (fun _ => ret tt)
      else ret tt);;
     Process_terminate process;;  (* SIGTERM *)
     Process_join process 3
   else ret tt);;
  Process_kill process;;  (* SIGKILL *)
  Process_join process 5.

(** Modelled from the spec: [MainActorPoolBase.stop_sub_pool] (module
    [xoscar.backends.pool]) drives the Shutdown Sequencer for the
    worker; the spec gives [stop(processHandle, timeout?, force)] the
    steps of [kill_sub_pool]. *)
Definition stop_sub_pool (_is_windows : bool) (address : string)
    (process : Process) (timeout : option Z) (force : bool) : MainM unit :=
  kill_sub_pool _is_windows process force.

(** [MainActorPool.remove_sub_pool] *)
Definition remove_sub_pool (_is_windows : bool) (external_address : string)
    (timeout : option Z) (force : bool) : MainM unit :=
  processes ← gets sub_processes;
  process ← lift (match processes !! external_address with
                  | Some p => Ok p
                  | None => raise KeyError
                  end);
  config ← gets _config;
  process_index ← lift (get_process_index config external_address);
  stop_sub_pool _is_windows external_address process timeout force;;
  emit (EvDetach external_address);;
  modify (fun s => set_sub_processes (delete external_address (sub_processes s)) s);;
  emit (EvRemovePoolConf process_index);;
  config ← gets _config;
  config ← lift (remove_pool_config process_index config);
  modify (set_config config);;
  handle_control_command_sync_config.

(** Modelled from the spec: [self.call(address, message)] delivers a
    message to a worker; its answer is not looked at here. *)
Definition call (address : string) (message : CreateActorMessage) : MainM unit :=
  emit (EvCall address message).

(** [MainActorPool.recover_sub_pool]; [outcome] is the outcome of the
    respawn. *)
Definition recover_sub_pool (outcome : result (Process * SubpoolStatus))
    (address : string) : MainM unit :=
  config ← gets _config;
  process_index ← lift (get_process_index config address);
  (* process dead, restart it
     remember always use spawn to recover sub pool *)
  task ← attempt (start_sub_pool outcome config process_index (Some "spawn"%string));
  '(processes, _) ← wait_sub_pools_ready [task];
  process ← lift (subscript_first (Some processes));
  modify (fun s => set_sub_processes (<[address := process]> (sub_processes s)) s);;
  auto_recover ← gets _auto_recover;
  if bool_decide (auto_recover = "actor"%string) then
    (* need to recover all created actors *)
    allocated ← gets _allocated_actors;
    match allocated !! address with
    | None => lift (raise KeyError)
    | Some actors =>
        for_each actors (fun '(_, (_, message)) => call address message)
    end
  else ret tt.

(** ** The worker bootstrap *)

(** What is observable of a worker process while it boots: its
    [os.environ], the items put on its status queue (oldest first),
    and the local variable [process_status] of [_create_sub_pool]. *)
Record worker := {
  worker_environ : gmap string string;
  status_queue : list (option SubpoolStatus);
  process_status : option SubpoolStatus
}.

Inductive worker_event :=
  | WvCreate (process_index : Z) (main_pool_pid : nat)
  | WvStart
  | WvPut (item : option SubpoolStatus)
  | WvCancelJoinThread
  | WvJoin.

Abbreviation WorkerM := (M worker worker_event).

Definition set_process_status (ps : option SubpoolStatus) (s : worker) : worker :=
  {| worker_environ := worker_environ s; status_queue := status_queue s;
     process_status := ps |}.

(** [status_queue.put(item)] *)
Definition status_queue_put (item : option SubpoolStatus) : WorkerM unit :=
  emit (WvPut item);;
  modify (fun s => {| worker_environ := worker_environ s;
                      status_queue := status_queue s ++ [item];
                      process_status := process_status s |}).

(** [MainActorPool._create_sub_pool].  What the pool runtime answers
    is given: [created] is the outcome of [SubActorPool.create], with
    the entry [cur_pool_config] as creation leaves it (the pool
    writes the bound addresses into this shared dict); [started] and
    [joined] are the outcomes of [pool.start()] and [pool.join()]. *)
Definition _create_sub_pool
    (created : result Conf.t) (started joined : result unit)
    (actor_config : ActorPoolConfig) (process_index : Z) (main_pool_pid : nat)
  : WorkerM unit :=
  modify (set_process_status None);;
  try_finally
    (try_except
       (cur_pool_config ← lift (get_pool_config actor_config process_index);
        let env := Conf.env cur_pool_config in
        (if truthy_env env
         then modify (fun s =>
                {| worker_environ := environ_update env (worker_environ s);
                   status_queue := status_queue s;
                   process_status := process_status s |})
         else ret tt);;
        emit (WvCreate process_index main_pool_pid);;
        cur_pool_config ← lift created;
        let external_addresses := Conf.external_address cur_pool_config in
        modify (set_process_status (Some
          {| status := Some 0; external_addresses := Some external_addresses;
             error := None; traceback := None |}));;
        emit WvStart;;
        lift started)
       (fun _ => true)
       (fun e =>
          (* _, error, tb = sys.exc_info() *)
          modify (set_process_status (Some
            {| status := Some 1; external_addresses := None;
               error := Some e; traceback := exn_traceback e |}));;
          lift (Raise e)))
    (ps ← gets process_status;
     status_queue_put ps;;
     emit WvCancelJoinThread);;
  emit WvJoin;;
  lift joined.

(** ** Concurrent launches through [_pre_set_env_in_main]

    The event loop runs one task at a time, from one suspension point
    to the next.  A launch suspends in two places: waiting for
    [_PRE_SET_ENV_LOCK], and waiting for the spawn inside the [with]
    body. *)

Module Launches.

(** Where a launch task stands. *)
Inductive pc :=
  | Entry
  | WaitingLock (global_environ : gmap string string)
  | Spawning (global_environ : option (gmap string string))
  | Finished (failed : bool).

(** One launch: the [env] it was called with, whether its spawn
    will fail, and where it stands. *)
Record task := {
  env : option (gmap string string);
  spawn_fails : bool;
  at_ : pc
}.

Definition at_pc (p : pc) (t : task) : task :=
  {| env := env t; spawn_fails := spawn_fails t; at_ := p |}.

(** The main process: [os.environ], the [asyncio.Lock] (its flag
    and its queue of waiting tasks), and the launch tasks. *)
Record system := {
  environ : gmap string string;
  locked : bool;
  waiters : list nat;
  tasks : list task
}.

Definition set_task (i : nat) (t : task) (sys : system) : system :=
  {| environ := environ sys; locked := locked sys; waiters := waiters sys;
     tasks := <[i := t]> (tasks sys) |}.

(** Task [i] runs until it suspends or ends; [None] when it cannot
    run (it has ended, or it waits for a lock it cannot take). *)
Definition step (i : nat) (sys : system) : option system :=
  t ← tasks sys !! i;
  match at_ t with
  | Entry =>
      match enable_pre_set_env (environ sys) with
      | Raise _ => Some (set_task i (at_pc (Finished true) t) sys)
      | Ok enable =>
          if negb enable || negb (truthy_env (env t))
          then Some (set_task i (at_pc (Spawning None) t) sys)
          else
            let global_environ := environ sys in
            if negb (locked sys) && bool_decide (waiters sys = [])
            then Some {| environ := environ_update (env t) (environ sys);
                         locked := true; waiters := waiters sys;
                         tasks := <[i := at_pc (Spawning (Some global_environ)) t]>
                                    (tasks sys) |}
            else Some {| environ := environ sys; locked := locked sys;
                         waiters := waiters sys ++ [i];
                         tasks := <[i := at_pc (WaitingLock global_environ) t]>
                                    (tasks sys) |}
      end
  | WaitingLock global_environ =>
      match waiters sys with
      | j :: rest =>
          if negb (locked sys) && bool_decide (j = i)
          then Some {| environ := environ_update (env t) (environ sys);
                       locked := true; waiters := rest;
                       tasks := <[i := at_pc (Spawning (Some global_environ)) t]>
                                  (tasks sys) |}
          else None
      | [] => None
      end
  | Spawning None =>
      Some (set_task i (at_pc (Finished (spawn_fails t)) t) sys)
  | Spawning (Some global_environ) =>
      (* finally: os.environ = global_environ; the lock is released *)
      Some {| environ := global_environ; locked := false;
              waiters := waiters sys;
              tasks := <[i := at_pc (Finished (spawn_fails t)) t]> (tasks sys) |}
  | Finished _ => None
  end.

(** A schedule names the task to run at each turn; a turn whose
    task cannot run is skipped. *)
Fixpoint run (schedule : list nat) (sys : system) : system :=
  match schedule with
  | [] => sys
  | i :: schedule' => run schedule' (default sys (step i sys))
  end.

Definition launch (e : option (gmap string string)) (fails : bool) : task :=
  {| env := e; spawn_fails := fails; at_ := Entry |}.

Definition start (environ0 : gmap string string) (ts : list task) : system :=
  {| environ := environ0; locked := false; waiters := []; tasks := ts |}.

Definition is_finished (t : task) : bool :=
  match at_ t with
  | Finished _ => true
  | _ => false
  end.

(** Inside the [with] body under the lock. *)
Definition holding (p : pc) : bool :=
  match p with
  | Spawning (Some _) => true
  | _ => false
  end.

Definition holds_lock (t : task) : bool := holding (at_ t).

(** The lock is held exactly when one launch is inside the locked
    body, and never by two. *)
Definition lock_invariant (sys : system) : Prop :=
  length (List.filter holds_lock (tasks sys)) = if locked sys then 1%nat else 0%nat.

End Launches.

(** Proof device: the state the interrupt of [kill_sub_pool] leaves
    behind. *)
Definition after_sigint (_is_windows : bool) (p : Process) (s : state) : state :=
  if _is_windows then s
  else if bool_decide (p ∈ alive s) then deliver SIGINT p s else s.

(** Proof device: the state [_send_signal] leaves behind, and what it
    adds to the history. *)
Definition sent_through (sig : signal) (p : Process) (s : state) : state :=
  if bool_decide (p ∈ reaped s) then s else deliver sig p s.

Definition sending (sig : signal) (p : Process) (s : state) : list (state * event) :=
  if bool_decide (p ∈ reaped s) then [] else [(s, EvSignal sig p)].

(** Proof device: the number a string of decimal digits denotes,
    read after the digits that gave [acc]. *)
Fixpoint uint_value (acc : Z) (d : Decimal.uint) : Z :=
  match d with
  | Decimal.Nil => acc
  | Decimal.D0 d => uint_value (10 * acc + 0) d
  | Decimal.D1 d => uint_value (10 * acc + 1) d
  | Decimal.D2 d => uint_value (10 * acc + 2) d
  | Decimal.D3 d => uint_value (10 * acc + 3) d
  | Decimal.D4 d => uint_value (10 * acc + 4) d
  | Decimal.D5 d => uint_value (10 * acc + 5) d
  | Decimal.D6 d => uint_value (10 * acc + 6) d
  | Decimal.D7 d => uint_value (10 * acc + 7) d
  | Decimal.D8 d => uint_value (10 * acc + 8) d
  | Decimal.D9 d => uint_value (10 * acc + 9) d
  end.

(** ** Checks on a history *)

(** The Store still lists [address] while [sub_processes] has no
    handle for it. *)
Definition dangling (address : string) (s : state) : bool :=
  match get_process_index (_config s) address with
  | Ok _ => negb (bool_decide (is_Some (sub_processes s !! address)))
  | Raise _ => false
  end.

(** No state of a run, nor its final state, has [address] dangling. *)
Definition never_dangling (address : string) (w : world state event) : bool :=
  forallb (fun '(s, _) => negb (dangling address s)) (history w)
  && negb (dangling address (now w)).

(** The signals [kill()] sends through the handles of [processes]
    in state [s]: a [SIGKILL] each, in order, and none through a
    handle whose [returncode] is set. *)
Definition kill_signals (s : state) (processes : list Process) : list event :=
  map (EvSignal SIGKILL) (filter (fun p => p ∉ reaped s) processes).

(** The events of a history, without the states. *)
Definition events {S E} (w : world S E) : list E := map snd (history w).

(** ** Reading a batch of launches *)

(** A launch that reported failure. *)
Definition reports_failure (r : Process * SubpoolStatus) : bool :=
  bool_decide (status r.2 = Some 1).

(** A failure status carries the error it reports, as those built by
    [_create_sub_pool] do. *)
Definition carries_error (r : Process * SubpoolStatus) : Prop :=
  status r.2 = Some 1 → is_Some (error r.2).

(** The error a launch reported, with its traceback attached. *)
Definition reported_error (r : Process * SubpoolStatus) : option exn :=
  if reports_failure r
  then (fun e => with_traceback e (traceback r.2)) <$> error r.2
  else None.

(** The error a batch ends with: that of the last launch that
    reported one, [err] when none did. *)
Definition batch_error (err : option exn) (results : list (Process * SubpoolStatus))
  : option exn :=
  fold_left (fun err r => match reported_error r with
                          | Some e => Some e
                          | None => err
                          end) results err.

(** ** A pool to run the operations on *)

Definition sample_conf (address : string) : Conf.t :=
  {| Conf.label := None; Conf.internal_address := None;
     Conf.external_address := [address]; Conf.env := None;
     Conf.modules := None; Conf.suspend_sigint := Some false;
     Conf.use_uvloop := Some false; Conf.logging_conf := None;
     Conf.kwargs := None |}.

Definition sample_message (n : nat) : CreateActorMessage :=
  {| message_id := n; actor_id := "actor" |}.

(** A main pool at [127.0.0.1:5000] with one worker, process 101, at
    [127.0.0.1:5001], hosting three actors. *)
Definition sample_state : state :=
  {| self_external_address := "127.0.0.1:5000";
     _config := [(0, sample_conf "127.0.0.1:5000"); (1, sample_conf "127.0.0.1:5001")];
     sub_processes := {[ "127.0.0.1:5001"%string := 101%nat ]};
     _allocated_actors :=
       {[ "127.0.0.1:5001"%string :=
            [("a"%string, ("ref-a"%string, sample_message 1));
             ("b"%string, ("ref-b"%string, sample_message 2));
             ("c"%string, ("ref-c"%string, sample_message 3))] ]};
     _auto_recover := "actor";
     os_environ := ∅;
     alive := {[ 101%nat ]};
     stubborn := ∅;
     reaped := ∅ |}.

Definition sample_world : world state event := World sample_state [].

(** The status a worker reports when its start-up failed. *)
Definition failure_status (e : exn) : SubpoolStatus :=
  {| status := Some 1; external_addresses := None;
     error := Some e; traceback := exn_traceback e |}.

(** The status a worker reports when it is up. *)
Definition success_status (addresses : list string) : SubpoolStatus :=
  {| status := Some 0; external_addresses := Some addresses;
     error := None; traceback := None |}.

(** A worker process that has just been spawned. *)
Definition fresh_worker : world worker worker_event :=
  World {| worker_environ := ∅; status_queue := []; process_status := None |} [].

(** A main process with the opt-in flag set, about to launch two
    workers that each pin their own device. *)
Definition two_launches : Launches.system :=
  Launches.start {[ "XOSCAR_PRE_SET_ENV"%string := "1"%string ]}
    [Launches.launch (Some {[ "CUDA_VISIBLE_DEVICES"%string := "0"%string ]}) false;
     Launches.launch (Some {[ "CUDA_VISIBLE_DEVICES"%string := "1"%string ]}) false].

(** ** Schedules *)

(** The schedule that runs [n] launches one after another: each gets
    both of its turns before the next one starts. *)
Definition one_after_another (first n : nat) : list nat :=
  flat_map (λ i, [i; i]) (seq first n).

(** ** [_terminate_children] *)

(** [_terminate_children]; [active_children] is what
    [multiprocessing.active_children()] gives and [terminate] what
    [c.terminate()] does, exceptions included.  Every exception type
    of this development derives from [Exception]. *)
Definition _terminate_children (active_children : list Process)
    (terminate : Process → MainM unit) : MainM unit :=
  for_each active_children (λ c,
    try_except (terminate c) (λ _, true) (λ _, ret tt)).

(** ** The spawn hook *)

Module SpawnHook.

(** A function object found in [mp_spawn.get_preparation_data]: the
    library's own, or a [_patched_get_preparation_data] closure
    around the function [_raw_get_preparation_data] it captured. *)
Inductive prep_fn :=
  | Raw
  | Patched (_raw_get_preparation_data : prep_fn).

(** [getattr(f, "_indigen_patched", False)] *)
Definition _indigen_patched (f : prep_fn) : bool :=
  match f with
  | Patched _ => true
  | Raw => false
  end.

(** [_init_main_suspended_local.value] ([None]: never set) and the
    attribute [mp_spawn.get_preparation_data]. *)
Record hook := {
  value : option bool;
  get_preparation_data : prep_fn
}.

(** [getattr(_init_main_suspended_local, "value", False)] *)
Definition suspended (h : hook) : bool := default false (value h).

(** Calling the function object, when the library's function returns
    the dict [ret]. *)
Fixpoint call (f : prep_fn) (h : hook) (ret : gmap string string)
  : gmap string string :=
  match f with
  | Raw => ret
  | Patched raw =>
      let ret := call raw h ret in
      if suspended h
      then (* make sure user module is not imported when start cluster *)
        delete "init_main_from_path"%string
          (delete "init_main_from_name"%string ret)
      else ret
  end.

(** [_patch_spawn_get_preparation_data] *)
Definition _patch_spawn_get_preparation_data (h : hook) : hook :=
  let _raw_get_preparation_data := get_preparation_data h in
  let _patched_get_preparation_data := Patched _raw_get_preparation_data in
  if negb (_indigen_patched (get_preparation_data h))
  then {| value := value h; get_preparation_data := _patched_get_preparation_data |}
  else h.

Definition set_value (v : option bool) (h : hook) : hook :=
  {| value := v; get_preparation_data := get_preparation_data h |}.

(** [_suspend_init_main], around one body. *)
Definition _suspend_init_main {E A} (body : M hook E A) : M hook E A :=
  try_finally
    (modify (set_value (Some true));; body)
    (modify (set_value (Some false))).

(** What [mp_spawn.get_preparation_data(...)] answers at this
    moment. *)
Definition preparation_data {E} (ret : gmap string string)
  : M hook E (gmap string string) :=
  gets (λ h, call (get_preparation_data h) h ret).

End SpawnHook.

(** * Properties *)

(** ** The address allocator *)

Example get_external_addresses_ex1 :
  get_external_addresses "localhost" (Some 2) None None
  = Ok ["localhost:0"; "localhost:0"; "localhost:0"]%string.
Proof. reflexivity. Qed.

Lemma rsplit1_contains c s h t :
  Py.rsplit1 c s = Some (h, t) → Py.contains c s = true.
Proof.
  revert h t. induction s as [|d s IH]; intros h t; simpl; [discriminate|].
  destruct (Ascii.eqb c d); [reflexivity|].
  destruct (Py.rsplit1 c s) as [[h' t']|]; [|discriminate].
  intros _. exact (IH h' t' eq_refl).
Qed.

Lemma zip_prefix_repeat ports p :
  zip_prefix ports (PrefixRepeat p) = map (fun port => (port, p)) ports.
Proof. destruct ports; reflexivity. Qed.

Lemma zip_prefix_list_length ports ps :
  length (zip_prefix ports (PrefixList ps)) = (length ports `min` length ps)%nat.
Proof.
  revert ps. induction ports as [|port ports IH]; intros [|p ps]; simpl; try reflexivity.
  f_equal. apply IH.
Qed.

Lemma truthy_list_false {A} (l : option (list A)) :
  Py.truthy_list l = false ↔ default [] l = [].
Proof. destruct l as [[|? ?]|]; simpl; split; congruence. Qed.

Lemma truthy_list_true {A} (l : option (list A)) :
  Py.truthy_list l = true ↔ default [] l ≠ [].
Proof. destruct l as [[|? ?]|]; simpl; split; congruence. Qed.

Lemma get_external_addresses_eq address n ports schemes :
  get_external_addresses address (Some n) ports schemes =
  match host_and_ports address n ports with
  | Raise e => Raise e
  | Ok (host, port, sub_ports) =>
      Ok (map (λ '(port, prefix), format_address prefix host port)
            (zip_prefix (port :: sub_ports)
               (if negb (Py.truthy_list schemes)
                then PrefixRepeat EmptyString
                else PrefixList (map scheme_prefix (default [] schemes)))))
  end.
Proof.
  unfold get_external_addresses, host_and_ports.
  destruct (Py.contains ":" address).
  - destruct (Py.rsplit1 ":" address) as [[host port_str]|]; [|reflexivity].
    destruct (Py.int_of_str port_str); [|reflexivity].
    destruct (Py.truthy_list ports); [|reflexivity].
    destruct (negb _); reflexivity.
  - destruct (Py.truthy_list ports && _); [reflexivity|].
    destruct (if negb (Py.truthy_list ports) then _ else _); reflexivity.
Qed.

(** The number of ports the allocator works with is [n_process + 1]. *)
Lemma host_and_ports_length address n ports host port sub_ports :
  0 <= n →
  host_and_ports address n ports = Ok (host, port, sub_ports) →
  Py.len (port :: sub_ports) = n + 1.
Proof.
  intros Hn. unfold host_and_ports, Py.len, Py.list_mul.
  destruct (Py.contains ":" address).
  - destruct (Py.rsplit1 ":" address) as [[h ps]|]; [|discriminate].
    destruct (Py.int_of_str ps); [|discriminate].
    destruct (Py.truthy_list ports).
    + destruct (Z.eqb_spec (Z.of_nat (length (default [] ports))) n); simpl; [|discriminate].
      intros [= _ _ <-]. simpl length. lia.
    + intros [= _ _ <-]. simpl length. rewrite repeat_length. lia.
  - destruct (Py.truthy_list ports) eqn:Ht; simpl.
    + destruct (Z.eqb_spec (Z.of_nat (length (default [] ports))) (n + 1)); simpl; [|discriminate].
      destruct (default [] ports) eqn:Hd; [discriminate|].
      intros [= _ <- <-]. simpl in e |- *. lia.
    + destruct (repeat 0 (Z.to_nat (n + 1))) eqn:Hr; [discriminate|].
      intros [= _ <- <-]. apply (f_equal length) in Hr.
      rewrite repeat_length in Hr. simpl in Hr |- *. lia.
Qed.

Lemma host_and_ports_with_port address n ports host port_str port :
  Py.rsplit1 ":" address = Some (host, port_str) →
  Py.int_of_str port_str = Some port →
  host_and_ports address n ports =
    if Py.truthy_list ports then
      if negb (Py.len (default [] ports) =? n) then raise ValueError
      else Ok (host, port, default [] ports)
    else Ok (host, port, Py.list_mul 0 n).
Proof.
  intros Hs Hp. unfold host_and_ports.
  rewrite (rsplit1_contains _ _ _ _ Hs), Hs, Hp. reflexivity.
Qed.

(** C4, as amended.  For [n_process >= 1] and no scheme prefixes:
    - with a base address [host:port], a non-empty port list of any
      length but [n_process] is a [ValueError]; one of length
      [n_process] gives the main address followed by one address per
      listed port, in order; no list, or an empty one, gives port 0
      to every worker;
    - with a bare host, a non-empty port list of any length but
      [n_process + 1] is a [ValueError]; one of that length gives one
      address per listed port, in order, the main one first; no list,
      or an empty one, gives [n_process + 1] addresses of port 0. *)
Theorem get_external_addresses_ports address n ports schemes :
  1 <= n →
  Py.truthy_list schemes = false →
  let supplied := default [] ports in
  (∀ host port_str port,
     Py.rsplit1 ":" address = Some (host, port_str) →
     Py.int_of_str port_str = Some port →
     (supplied ≠ [] → Py.len supplied ≠ n →
        get_external_addresses address (Some n) ports schemes = raise ValueError)
     ∧ (supplied ≠ [] → Py.len supplied = n →
        get_external_addresses address (Some n) ports schemes
        = Ok (format_address "" host port
              :: map (format_address "" host) supplied))
     ∧ (supplied = [] →
        get_external_addresses address (Some n) ports schemes
        = Ok (format_address "" host port
              :: repeat (format_address "" host 0) (Z.to_nat n))))
  ∧ (Py.contains ":" address = false →
     (supplied ≠ [] → Py.len supplied ≠ n + 1 →
        get_external_addresses address (Some n) ports schemes = raise ValueError)
     ∧ (supplied ≠ [] → Py.len supplied = n + 1 →
        get_external_addresses address (Some n) ports schemes
        = Ok (map (format_address "" address) supplied))
     ∧ (supplied = [] →
        get_external_addresses address (Some n) ports schemes
        = Ok (repeat (format_address "" address 0) (Z.to_nat (n + 1))))).
Proof.
  intros Hn Hsch supplied. split.
  - intros host port_str port Hs Hp.
    rewrite get_external_addresses_eq, Hsch.
    rewrite (host_and_ports_with_port _ _ _ _ _ _ Hs Hp). simpl negb. cbv iota.
    repeat split.
    + intros Hne Hlen. apply truthy_list_true in Hne. rewrite Hne.
      fold supplied. destruct (Z.eqb_spec (Py.len supplied) n); [contradiction|].
      reflexivity.
    + intros Hne Hlen. apply truthy_list_true in Hne. rewrite Hne.
      fold supplied. rewrite Hlen, Z.eqb_refl. simpl negb. cbv iota.
      rewrite zip_prefix_repeat, map_map. reflexivity.
    + intros He. apply truthy_list_false in He. rewrite He.
      rewrite zip_prefix_repeat, map_map. simpl. unfold Py.list_mul.
      rewrite map_repeat. reflexivity.
  - intros Hc. rewrite get_external_addresses_eq, Hsch. simpl negb. cbv iota.
    unfold host_and_ports. rewrite Hc. repeat split.
    + intros Hne Hlen. apply truthy_list_true in Hne. rewrite Hne.
      fold supplied. destruct (Z.eqb_spec (Py.len supplied) (n + 1)); [contradiction|].
      reflexivity.
    + intros Hne Hlen. pose proof Hne as Ht. apply truthy_list_true in Ht. rewrite Ht.
      fold supplied. rewrite Hlen, Z.eqb_refl. cbn [andb negb].
      destruct supplied as [|port sub_ports]; [contradiction|].
      rewrite zip_prefix_repeat, map_map. reflexivity.
    + intros He. apply truthy_list_false in He. rewrite He. cbn [andb negb].
      unfold Py.list_mul.
      destruct (Z.to_nat (n + 1)) as [|k] eqn:Hk; [lia|]. simpl repeat. cbv iota.
      rewrite zip_prefix_repeat, map_map. change (0 :: repeat 0 k) with (repeat 0 (S k)).
      rewrite map_repeat. reflexivity.
Qed.

Lemma get_external_addresses_ports_witness :
  get_external_addresses "localhost:1234" (Some 2) (Some [7; 8]) None
  = Ok ["localhost:1234"; "localhost:7"; "localhost:8"]%string
  ∧ get_external_addresses "localhost" (Some 2) (Some [6; 7; 8]) None
  = Ok ["localhost:6"; "localhost:7"; "localhost:8"]%string.
Proof.
  split.
  - pose proof (get_external_addresses_ports "localhost:1234" 2 (Some [7; 8]) None
                  ltac:(lia) eq_refl) as [H _].
    destruct (H "localhost"%string "1234"%string 1234 eq_refl eq_refl) as (_ & H2 & _).
    apply H2; [discriminate | reflexivity].
  - pose proof (get_external_addresses_ports "localhost" 2 (Some [6; 7; 8]) None
                  ltac:(lia) eq_refl) as [_ H].
    destruct (H eq_refl) as (_ & H2 & _).
    apply H2; [discriminate | reflexivity].
Defined.

(** C4 as stated fails: an empty port list has a length other than
    [n_process], and the call succeeds, treating it as no list. *)
Lemma get_external_addresses_empty_ports_accepted :
  Py.len (@nil Z) ≠ 1
  ∧ get_external_addresses "localhost:1234" (Some 1) (Some []) None
    = Ok ["localhost:1234"; "localhost:0"]%string
  ∧ Py.len (@nil Z) ≠ 1 + 1
  ∧ get_external_addresses "localhost" (Some 1) (Some []) None
    = Ok ["localhost:0"; "localhost:0"]%string.
Proof. repeat split; discriminate. Qed.

(** C9, as amended.  For [n_process >= 0]: a non-empty [schemes]
    list with fewer than [n_process + 1] entries never adds an error
    (the call raises exactly what it raises without [schemes]), and
    when the call returns it returns exactly [len(schemes)]
    addresses; with [schemes] absent or empty a call that returns
    gives exactly [n_process + 1] addresses. *)
Theorem get_external_addresses_schemes address n ports :
  0 <= n →
  (∀ schemes : list (option string),
     schemes ≠ [] → Py.len schemes < n + 1 →
     match get_external_addresses address (Some n) ports None with
     | Raise e =>
         get_external_addresses address (Some n) ports (Some schemes) = Raise e
     | Ok _ =>
         ∃ addresses,
           get_external_addresses address (Some n) ports (Some schemes) = Ok addresses
           ∧ length addresses = length schemes
     end)
  ∧ (∀ schemes addresses,
       Py.truthy_list schemes = false →
       get_external_addresses address (Some n) ports schemes = Ok addresses →
       Py.len addresses = n + 1).
Proof.
  intros Hn. split.
  - intros schemes Hne Hlen. rewrite !get_external_addresses_eq.
    destruct (host_and_ports address n ports) as [[[host port] sub_ports]|e] eqn:Hhp;
      [|reflexivity].
    eexists. split; [reflexivity|].
    assert (Py.truthy_list (Some schemes) = true) as -> by (destruct schemes; [contradiction|reflexivity]).
    cbn [negb default]. rewrite length_map, zip_prefix_list_length, length_map.
    apply host_and_ports_length in Hhp; [|exact Hn].
    unfold Py.len, id in *. lia.
  - intros schemes addresses Hf. rewrite get_external_addresses_eq, Hf.
    destruct (host_and_ports address n ports) as [[[host port] sub_ports]|e] eqn:Hhp;
      [|discriminate].
    intros [= <-].
    apply host_and_ports_length in Hhp; [|exact Hn].
    unfold Py.len in *. simpl length in *. rewrite !length_map. exact Hhp.
Qed.

Lemma get_external_addresses_schemes_witness :
  (∃ addresses,
     get_external_addresses "localhost" (Some 2) (Some [7; 8; 9])
       (Some [Some "ucx"; None])%string = Ok addresses
     ∧ length addresses = 2%nat)
  ∧ Py.len ["localhost:0"; "localhost:0"; "localhost:0"]%string = 2 + 1.
Proof.
  pose proof (get_external_addresses_schemes "localhost" 2 (Some [7; 8; 9])
                ltac:(lia)) as [H1 _].
  pose proof (get_external_addresses_schemes "localhost" 2 None
                ltac:(lia)) as [_ H2].
  split.
  - exact (H1 [Some "ucx"; None]%string ltac:(discriminate) ltac:(reflexivity)).
  - exact (H2 None _ eq_refl eq_refl).
Defined.

(** C9 as stated fails: an empty [schemes] list has fewer than
    [n_process + 1] entries, and nothing is truncated. *)
Lemma get_external_addresses_empty_schemes_not_truncated :
  Py.len (@nil (option string)) < 2 + 1
  ∧ ∃ addresses,
      get_external_addresses "localhost" (Some 2) None (Some []) = Ok addresses
      ∧ length addresses ≠ length (@nil (option string)).
Proof.
  split; [reflexivity|].
  exists ["localhost:0"; "localhost:0"; "localhost:0"]%string.
  split; [reflexivity | discriminate].
Qed.

(** ** [str] and [int] agree *)

Example int_of_str_ex :
  Py.int_of_str " +1_000 " = Some 1000
  ∧ Py.int_of_str "-12" = Some (-12)
  ∧ Py.int_of_str "1__0" = None
  ∧ Py.int_of_str "- 1" = None
  ∧ Py.int_of_str "" = None
  ∧ Py.rsplit1 ":" "ucx://127.0.0.1:5000" = Some ("ucx://127.0.0.1", "5000")%string.
Proof. repeat split; reflexivity. Qed.

Lemma of_uint_acc_value d p :
  Z.pos (Pos.of_uint_acc d p) = uint_value (Z.pos p) d.
Proof.
  revert p. induction d; intros p; cbn [Pos.of_uint_acc uint_value];
    [reflexivity|..]; rewrite IHd; f_equal; lia.
Qed.

Lemma of_uint_value d : Z.of_uint d = uint_value 0 d.
Proof.
  unfold Z.of_uint.
  induction d; cbn [Pos.of_uint uint_value]; try exact IHd; try reflexivity;
    cbn [Z.of_N]; rewrite of_uint_acc_value; reflexivity.
Qed.

Lemma digits_string_of_uint d acc :
  Py.digits acc true (list_ascii_of_string (NilEmpty.string_of_uint d))
  = Some (uint_value acc d).
Proof.
  revert acc. induction d; intros acc; cbn [NilEmpty.string_of_uint list_ascii_of_string];
    [reflexivity|..]; cbn [Py.digits uint_value]; rewrite <- IHd; reflexivity.
Qed.

Lemma digits_string_of_uint_start d :
  d ≠ Decimal.Nil →
  Py.digits 0 false (list_ascii_of_string (NilEmpty.string_of_uint d))
  = Some (uint_value 0 d).
Proof.
  destruct d; [congruence|..]; intros _;
    cbn [NilEmpty.string_of_uint list_ascii_of_string uint_value];
    rewrite <- digits_string_of_uint; reflexivity.
Qed.

Lemma string_of_uint_digits d :
  Forall (λ c, Py.is_digit c = true)
    (list_ascii_of_string (NilEmpty.string_of_uint d)).
Proof. induction d; cbn; constructor; first [reflexivity | assumption]. Qed.

Lemma lstrip_no_space l :
  Forall (λ c, Py.is_space c = false) l → Py.lstrip l = l.
Proof. destruct 1 as [|c l Hc _]; cbn; [reflexivity|]. rewrite Hc. reflexivity. Qed.

Lemma strip_no_space l :
  Forall (λ c, Py.is_space c = false) l → Py.strip l = l.
Proof.
  intros H. unfold Py.strip. rewrite (lstrip_no_space l H).
  rewrite lstrip_no_space by (apply Forall_rev; exact H).
  apply rev_involutive.
Qed.

Lemma digit_not_space c : Py.is_digit c = true → Py.is_space c = false.
Proof.
  unfold Py.is_digit, Py.is_space. intros H.
  apply andb_true_iff in H as [H1 H2].
  apply Nat.leb_le in H1. 
  apply orb_false_iff. split; apply andb_false_iff; right; apply Nat.leb_gt; lia.
Qed.

(** [int(str(n)) == n] *)
Lemma int_of_str_of_int z : Py.int_of_str (Py.str_of_int z) = Some z.
Proof.
  unfold Py.str_of_int, Py.int_of_str.
  rewrite <- (DecimalZ.of_to z) at 2.
  destruct (Z.to_int z) as [d|d] eqn:Hz.
  - assert (d ≠ Decimal.Nil) as Hd.
    { destruct z; cbn [Z.to_int] in Hz; try discriminate; injection Hz as <-;
        [discriminate | apply DecimalPos.Unsigned.to_uint_nonnil]. }
    assert (NilZero.string_of_uint d = NilEmpty.string_of_uint d) as Hs
      by (destruct d; [congruence | reflexivity..]).
    cbn [NilZero.string_of_int Z.of_int]. rewrite Hs.
    rewrite strip_no_space
      by (eapply Forall_impl; [apply string_of_uint_digits | apply digit_not_space]).
    rewrite of_uint_value, <- (digits_string_of_uint_start d Hd).
    pose proof (string_of_uint_digits d) as Hdig.
    destruct (list_ascii_of_string (NilEmpty.string_of_uint d)) as [|c l] eqn:Hl.
    + destruct d; [congruence | discriminate..].
    + apply Forall_cons in Hdig as [Hc _].
      destruct (Ascii.eqb_spec c "-") as [->|]; [discriminate|].
      destruct (Ascii.eqb_spec c "+") as [->|]; [discriminate|]. reflexivity.
  - assert (d ≠ Decimal.Nil) as Hd.
    { destruct z; cbn [Z.to_int] in Hz; try discriminate. injection Hz as <-.
      apply DecimalPos.Unsigned.to_uint_nonnil. }
    assert (NilZero.string_of_uint d = NilEmpty.string_of_uint d) as Hs
      by (destruct d; [congruence | reflexivity..]).
    cbn [NilZero.string_of_int Z.of_int list_ascii_of_string]. rewrite Hs.
    rewrite strip_no_space.
    + cbn [Ascii.eqb Bool.eqb]. cbn. rewrite (digits_string_of_uint_start d Hd).
      cbn. rewrite of_uint_value. reflexivity.
    + constructor; [reflexivity|].
      eapply Forall_impl; [apply string_of_uint_digits | apply digit_not_space].
Qed.

(** ** Addresses made by the allocator can be read back *)

Lemma rsplit1_absent c s : Py.contains c s = false → Py.rsplit1 c s = None.
Proof.
  induction s as [|d s IH]; cbn; [reflexivity|].
  destruct (Ascii.eqb c d); [discriminate|]. intros H. rewrite (IH H). reflexivity.
Qed.

Lemma rsplit1_last c a t :
  Py.contains c t = false → Py.rsplit1 c (a +:+ String c t) = Some (a, t).
Proof.
  intros Ht. induction a as [|d a IH].
  - change (EmptyString +:+ String c t) with (String c t). cbn.
    rewrite (rsplit1_absent _ _ Ht), Ascii.eqb_refl. reflexivity.
  - change (String d a +:+ String c t) with (String d (a +:+ String c t)). cbn.
    rewrite IH. reflexivity.
Qed.

Lemma string_of_uint_no_colon d :
  Py.contains ":" (NilEmpty.string_of_uint d) = false.
Proof. induction d; cbn; first [reflexivity | assumption]. Qed.

Lemma str_of_int_no_colon z : Py.contains ":" (Py.str_of_int z) = false.
Proof.
  unfold Py.str_of_int.
  assert (∀ d, Py.contains ":" (NilZero.string_of_uint d) = false) as H
    by (intros d; destruct d; first [reflexivity | apply (string_of_uint_no_colon (_ d))]).
  destruct (Z.to_int z); cbn; apply H.
Qed.

(** The text after the last colon of a formatted address is its
    port. *)
Lemma format_address_parses prefix host port :
  Py.rsplit1 ":" (format_address prefix host port)
  = Some (prefix +:+ host, Py.str_of_int port)
  ∧ Py.int_of_str (Py.str_of_int port) = Some port.
Proof.
  split; [|apply int_of_str_of_int].
  unfold format_address.
  replace (prefix +:+ host +:+ ":" +:+ Py.str_of_int port)
    with ((prefix +:+ host) +:+ String ":" (Py.str_of_int port)).
  - apply rsplit1_last, str_of_int_no_colon.
  - induction prefix as [|c prefix IH]; [reflexivity|].
    change (String c prefix +:+ host) with (String c (prefix +:+ host)).
    change (String c (prefix +:+ host) +:+ String ":" (Py.str_of_int port))
      with (String c ((prefix +:+ host) +:+ String ":" (Py.str_of_int port))).
    rewrite IH. reflexivity.
Qed.

(** The allocator accepts every address it has made as a base
    address: with no port list, the main address is that address
    again and every worker gets port 0 on the same host. *)
Lemma get_external_addresses_of_allocated prefix host port n :
  get_external_addresses (format_address prefix host port) (Some n) None None
  = Ok (format_address "" (prefix +:+ host) port
        :: repeat (format_address "" (prefix +:+ host) 0) (Z.to_nat n)).
Proof.
  destruct (format_address_parses prefix host port) as [Hs Hp].
  rewrite get_external_addresses_eq.
  rewrite (host_and_ports_with_port _ _ _ _ _ _ Hs Hp). cbn.
  unfold Py.list_mul. rewrite map_map, map_repeat. reflexivity.
Qed.

(** ** Running the monad *)

#[local] Arguments subscript_last : simpl never.
#[local] Arguments subscript_first : simpl never.
#[local] Arguments get_external_addresses : simpl never.
#[local] Arguments add_pool_conf : simpl never.
#[local] Arguments deliver : simpl never.
#[local] Arguments call : simpl never.
#[local] Arguments kill_signals : simpl never.

Ltac run_M :=
  repeat progress
    (unfold try_finally, try_except, attempt, mbind, M_bind, mret, M_ret,
       bind, ret, lift, gets, modify, emit in *;
     cbn -[deliver] in *).
(** ** The Shutdown Sequencer *)

Lemma _send_signal_run p sig w :
  _send_signal p sig w
  = (World (sent_through sig p (now w)) (history w ++ sending sig p (now w)), Ok tt).
Proof.
  destruct w as [s h]. unfold _send_signal, sent_through, sending. run_M.
  destruct (bool_decide (p ∈ reaped s)); run_M; [by rewrite app_nil_r|reflexivity].
Qed.

Lemma Process_join_run p timeout w :
  Process_join p timeout w
  = (World (poll p (now w)) (history w ++ [(now w, EvJoin p timeout)]), Ok tt).
Proof. destruct w as [s h]. unfold Process_join. run_M. reflexivity. Qed.

Lemma interrupt_run _is_windows p w :
  (if negb _is_windows then
     try_except (os_kill p SIGINT)
       (fun e => match exn_type e with OSError => true | _ => false end)
       (fun _ => ret tt)
   else ret tt) w
  = (World (after_sigint _is_windows p (now w))
       (history w ++ (if _is_windows then [] else [(now w, EvSignal SIGINT p)])),
     Ok tt).
Proof.
  destruct w as [s h]. unfold after_sigint, os_kill.
  destruct _is_windows; run_M; [by rewrite app_nil_r|].
  destruct (bool_decide (p ∈ alive s)); run_M; reflexivity.
Qed.

(** The exact run of [kill_sub_pool]: it never raises, and its
    history is fixed by [force], the platform and what the handle
    knows of its process. *)
Lemma kill_sub_pool_run _is_windows p force w :
  kill_sub_pool _is_windows p force w =
  if force then
    let s1 := sent_through SIGKILL p (now w) in
    (World (poll p s1)
       (history w ++ sending SIGKILL p (now w) ++ [(s1, EvJoin p 5)]), Ok tt)
  else
    let s1 := after_sigint _is_windows p (now w) in
    let s2 := sent_through SIGTERM p s1 in
    let s3 := poll p s2 in
    let s4 := sent_through SIGKILL p s3 in
    (World (poll p s4)
       (history w
        ++ (if _is_windows then [] else [(now w, EvSignal SIGINT p)])
        ++ sending SIGTERM p s1 ++ [(s2, EvJoin p 3)]
        ++ sending SIGKILL p s3 ++ [(s4, EvJoin p 5)]), Ok tt).
Proof.
  unfold kill_sub_pool, Process_terminate, Process_kill.
  destruct force; simpl negb; cbv iota.
  - unfold mbind, M_bind, bind, ret. cbv beta.
    rewrite _send_signal_run, Process_join_run. cbn [now history].
    rewrite <- List.app_assoc. reflexivity.
  - unfold mbind, M_bind, bind. cbv beta.
    rewrite interrupt_run, _send_signal_run, Process_join_run, _send_signal_run,
      Process_join_run.
    cbn [now history]. rewrite <- !List.app_assoc. reflexivity.
Qed.

Lemma kill_sub_pool_returns _is_windows p force w :
  snd (kill_sub_pool _is_windows p force w) = Ok tt.
Proof. rewrite kill_sub_pool_run. destruct force; reflexivity. Qed.

Lemma deliver_config sig p s : _config (deliver sig p s) = _config s.
Proof. unfold deliver. destruct sig; try case_bool_decide; reflexivity. Qed.

Lemma deliver_sub_processes sig p s :
  sub_processes (deliver sig p s) = sub_processes s.
Proof. unfold deliver. destruct sig; try case_bool_decide; reflexivity. Qed.

Lemma deliver_reaped sig p s : reaped (deliver sig p s) = reaped s.
Proof. unfold deliver. destruct sig; try case_bool_decide; reflexivity. Qed.

Lemma after_sigint_config win p s : _config (after_sigint win p s) = _config s.
Proof.
  unfold after_sigint. destruct win; [reflexivity|].
  case_bool_decide; [apply deliver_config | reflexivity].
Qed.

Lemma after_sigint_sub_processes win p s :
  sub_processes (after_sigint win p s) = sub_processes s.
Proof.
  unfold after_sigint. destruct win; [reflexivity|].
  case_bool_decide; [apply deliver_sub_processes | reflexivity].
Qed.

Lemma after_sigint_reaped win p s : reaped (after_sigint win p s) = reaped s.
Proof.
  unfold after_sigint. destruct win; [reflexivity|].
  case_bool_decide; [apply deliver_reaped | reflexivity].
Qed.

Lemma sent_through_config sig p s : _config (sent_through sig p s) = _config s.
Proof. unfold sent_through. case_bool_decide; [reflexivity | apply deliver_config]. Qed.

Lemma sent_through_sub_processes sig p s :
  sub_processes (sent_through sig p s) = sub_processes s.
Proof.
  unfold sent_through. case_bool_decide; [reflexivity | apply deliver_sub_processes].
Qed.

Lemma sent_through_reaped sig p s : reaped (sent_through sig p s) = reaped s.
Proof. unfold sent_through. case_bool_decide; [reflexivity | apply deliver_reaped]. Qed.

Lemma poll_config p s : _config (poll p s) = _config s.
Proof. unfold poll. case_bool_decide; reflexivity. Qed.

Lemma poll_sub_processes p s : sub_processes (poll p s) = sub_processes s.
Proof. unfold poll. case_bool_decide; reflexivity. Qed.

Lemma poll_alive p s : alive (poll p s) = alive s.
Proof. unfold poll. case_bool_decide; reflexivity. Qed.

(** After a [poll] the handle knows its process gone exactly if it
    knew before or the process is not running. *)
Lemma poll_reaped p s :
  p ∈ reaped (poll p s) ↔ p ∈ reaped s ∨ p ∉ alive s.
Proof.
  unfold poll. case_bool_decide; cbn; [tauto|].
  rewrite elem_of_union, elem_of_singleton. tauto.
Qed.

(** What [kill] sends through a handle that was fresh before the
    last [poll]. *)
Lemma sending_after_poll sig p s :
  map snd (sending sig p (poll p s))
  = if bool_decide (p ∈ alive s)
    then (if bool_decide (p ∈ reaped s) then [] else [EvSignal sig p])
    else [].
Proof.
  unfold sending.
  destruct (decide (p ∈ alive s)) as [Ha|Ha].
  - rewrite (bool_decide_eq_true_2 _ Ha).
    destruct (decide (p ∈ reaped s)) as [Hr|Hr].
    + rewrite (bool_decide_eq_true_2 _ Hr), bool_decide_eq_true_2; [done|].
      apply poll_reaped. by left.
    + rewrite (bool_decide_eq_false_2 _ Hr), bool_decide_eq_false_2; [done|].
      rewrite poll_reaped. tauto.
  - rewrite (bool_decide_eq_false_2 _ Ha), bool_decide_eq_true_2; [done|].
    apply poll_reaped. by right.
Qed.

(** C3.  Without [force] the sequencer sends the interrupt (not on
    Windows), asks for termination, and waits up to 3; the kill
    signal that follows is sent only if the process is still running
    in the state [s] the grace wait ended in (and through a handle
    that did not know its process gone before the call); then it
    waits up to 5.  With [force] it goes to the kill and the wait of
    5 at once.  It never raises, and the process of a handle that did
    not know it gone is not running afterwards. *)
Theorem kill_sub_pool_sequence _is_windows p force w :
  let w' := fst (kill_sub_pool _is_windows p force w) in
  snd (kill_sub_pool _is_windows p force w) = Ok tt
  ∧ (if force then
       events w'
       = events w
         ++ (if bool_decide (p ∈ reaped (now w)) then [] else [EvSignal SIGKILL p])
         ++ [EvJoin p 5]
     else
       ∃ before s after,
         history w' = history w ++ before ++ (s, EvJoin p 3) :: after
         ∧ map snd before
           = (if _is_windows then [] else [EvSignal SIGINT p])
             ++ (if bool_decide (p ∈ reaped (now w)) then [] else [EvSignal SIGTERM p])
         ∧ map snd after
           = (if bool_decide (p ∈ alive s)
              then (if bool_decide (p ∈ reaped (now w)) then []
                    else [EvSignal SIGKILL p])
              else [])
             ++ [EvJoin p 5])
  ∧ (p ∉ reaped (now w) → p ∉ alive (now w')).
Proof.
  intros w'. subst w'. rewrite kill_sub_pool_run. unfold events.
  destruct force; cbn [fst snd now history].
  - split; [reflexivity|]. split.
    + rewrite !map_app. unfold sending. case_bool_decide; reflexivity.
    + intros Hr. rewrite poll_alive. unfold sent_through.
      rewrite bool_decide_eq_false_2 by exact Hr. cbn.
      apply not_elem_of_difference. right. by apply elem_of_singleton.
  - split; [reflexivity|]. split.
    + set (s1 := after_sigint _is_windows p (now w)).
      set (s2 := sent_through SIGTERM p s1).
      exists ((if _is_windows then [] else [(now w, EvSignal SIGINT p)])
              ++ sending SIGTERM p s1), s2,
             (sending SIGKILL p (poll p s2)
              ++ [(sent_through SIGKILL p (poll p s2), EvJoin p 5)]).
      subst s2 s1.
      split; [rewrite <- !List.app_assoc; reflexivity|]. split.
      * rewrite map_app. unfold sending. rewrite after_sigint_reaped.
        destruct _is_windows; case_bool_decide; reflexivity.
      * rewrite map_app, sending_after_poll, sent_through_reaped, after_sigint_reaped.
        reflexivity.
    + intros Hr. rewrite poll_alive.
      set (s2 := sent_through SIGTERM p (after_sigint _is_windows p (now w))).
      assert (reaped s2 = reaped (now w)) as Hr2
        by (unfold s2; by rewrite sent_through_reaped, after_sigint_reaped).
      unfold sent_through at 1.
      destruct (decide (p ∈ alive s2)) as [Ha|Ha].
      * rewrite bool_decide_eq_false_2.
        -- cbn. apply not_elem_of_difference. right. by apply elem_of_singleton.
        -- rewrite poll_reaped, Hr2. tauto.
      * case_bool_decide; [by rewrite poll_alive|].
        cbn. apply not_elem_of_difference. right. by apply elem_of_singleton.
Qed.

(** The two branches on a pool: a worker that exits on the interrupt
    gets no [SIGKILL]; one that survives [SIGINT] and [SIGTERM] gets
    it after the grace wait. *)
Example kill_sub_pool_sequence_ex :
  events (fst (kill_sub_pool false 101%nat false sample_world))
  = [EvSignal SIGINT 101%nat; EvSignal SIGTERM 101%nat; EvJoin 101%nat 3;
     EvJoin 101%nat 5]
  ∧ events (fst (kill_sub_pool false 101%nat false
                   (World {| self_external_address := self_external_address sample_state;
                             _config := _config sample_state;
                             sub_processes := sub_processes sample_state;
                             _allocated_actors := _allocated_actors sample_state;
                             _auto_recover := _auto_recover sample_state;
                             os_environ := os_environ sample_state;
                             alive := alive sample_state;
                             stubborn := {[ 101%nat ]};
                             reaped := ∅ |} [])))
    = [EvSignal SIGINT 101%nat; EvSignal SIGTERM 101%nat; EvJoin 101%nat 3;
       EvSignal SIGKILL 101%nat; EvJoin 101%nat 5].
Proof. vm_compute. split; reflexivity. Qed.

(** ** Removing a worker *)

Lemma get_process_index_registered c address process_index :
  get_process_index c address = Ok process_index →
  ∃ conf, dict_get process_index c = Some conf.
Proof.
  induction c as [|[k conf] c IH]; simpl; [discriminate|].
  case_bool_decide.
  - intros [= ->]. exists conf. destruct (decide (process_index = process_index)); congruence.
  - intros H'. destruct (decide (process_index = k)); [eauto | auto].
Qed.

Lemma kill_sub_pool_tables _is_windows p force w :
  _config (now (fst (kill_sub_pool _is_windows p force w))) = _config (now w)
  ∧ sub_processes (now (fst (kill_sub_pool _is_windows p force w)))
    = sub_processes (now w).
Proof.
  rewrite kill_sub_pool_run. destruct force; cbn [fst now].
  - rewrite poll_config, poll_sub_processes, sent_through_config,
      sent_through_sub_processes. done.
  - rewrite !poll_config, !poll_sub_processes, !sent_through_config,
      !sent_through_sub_processes, !poll_config, !poll_sub_processes,
      !sent_through_config, !sent_through_sub_processes,
      after_sigint_config, after_sigint_sub_processes. done.
Qed.

(** C2, as amended.  For an address with a handle in
    [sub_processes] and an entry in the Store, [remove_sub_pool]
    first runs the Shutdown Sequencer, which touches neither table;
    then deletes the handle from [sub_processes]; then deletes the
    entry from the Store; then hands the new Store to the
    synchronizer, and returns.  In the state between the two
    deletions the Store still lists the address and no handle is left
    for it. *)
Theorem remove_sub_pool_order _is_windows address timeout force w p process_index :
  sub_processes (now w) !! address = Some p →
  get_process_index (_config (now w)) address = Ok process_index →
  ∃ w1,
    stop_sub_pool _is_windows address p timeout force w = (w1, Ok tt)
    ∧ _config (now w1) = _config (now w)
    ∧ sub_processes (now w1) = sub_processes (now w)
    ∧ let s2 := set_sub_processes (delete address (sub_processes (now w1))) (now w1) in
      let s3 := set_config (dict_del process_index (_config s2)) s2 in
      remove_sub_pool _is_windows address timeout force w
      = (World s3 (history w1 ++ [(now w1, EvDetach address);
                                  (s2, EvRemovePoolConf process_index);
                                  (s3, EvSyncConfig (_config s3))]), Ok tt)
      ∧ dangling address s2 = true.
Proof.
  intros Hp Hidx.
  destruct (stop_sub_pool _is_windows address p timeout force w) as [w1 r] eqn:Hstop.
  pose proof (kill_sub_pool_tables _is_windows p force w) as [Hc Hs].
  pose proof (kill_sub_pool_returns _is_windows p force w) as Hr.
  unfold stop_sub_pool in Hstop. rewrite Hstop in Hc, Hs, Hr. cbn [fst snd] in Hc, Hs, Hr.
  subst r. exists w1. split; [reflexivity|]. split; [exact Hc|]. split; [exact Hs|].
  intros s2 s3. split.
  - unfold remove_sub_pool, stop_sub_pool, handle_control_command_sync_config. run_M.
    rewrite Hp, Hidx, Hstop. cbn.
    destruct (get_process_index_registered _ _ _ Hidx) as [conf Hconf].
    unfold remove_pool_config, get_pool_config. rewrite Hc, Hconf. cbn.
    subst s3 s2. rewrite <- !List.app_assoc. cbn. rewrite Hc. reflexivity.
  - unfold dangling. subst s2. cbn. rewrite Hc, Hidx.
    rewrite lookup_delete_eq. reflexivity.
Qed.

Lemma remove_sub_pool_order_witness :
  ∃ w', remove_sub_pool false "127.0.0.1:5001" None false sample_world = (w', Ok tt)
        ∧ sub_processes (now w') !! "127.0.0.1:5001"%string = None
        ∧ get_process_indexes (_config (now w')) = [0].
Proof.
  destruct (remove_sub_pool_order false "127.0.0.1:5001" None false sample_world
              101%nat 1 eq_refl eq_refl) as (w1 & _ & Hc & _ & Hrun & _).
  eexists. split; [exact Hrun|]. split.
  - apply lookup_delete_eq.
  - cbn. rewrite Hc. reflexivity.
Defined.

(** C2 as stated fails: the handle is deleted before the Store entry,
    not after, and in between the Store lists an address that has no
    handle. *)
Lemma remove_sub_pool_detaches_first :
  let w := fst (remove_sub_pool false "127.0.0.1:5001" None false sample_world) in
  map snd (history w)
  = [EvSignal SIGINT 101%nat; EvSignal SIGTERM 101%nat; EvJoin 101%nat 3;
     EvJoin 101%nat 5;
     EvDetach "127.0.0.1:5001"; EvRemovePoolConf 1;
     EvSyncConfig [(0, sample_conf "127.0.0.1:5000")]]
  ∧ never_dangling "127.0.0.1:5001" w = false.
Proof. vm_compute. split; reflexivity. Qed.

(** ** Appending a worker *)

(** The launch inside [_pre_set_env_in_main] touches neither the
    Store nor [sub_processes]. *)
Lemma launch_tables env outcome process_index start_method w :
  let w' := fst (_pre_set_env_in_main env
                   (start_pool_in_process outcome process_index start_method) w) in
  _config (now w') = _config (now w)
  ∧ sub_processes (now w') = sub_processes (now w).
Proof.
  destruct w as [s h]. unfold _pre_set_env_in_main, start_pool_in_process. run_M.
  destruct (enable_pre_set_env (os_environ s)) as [enable|e]; cbn; [|done].
  destruct (negb enable || negb (truthy_env env)); cbn.
  - destruct outcome as [[p st]|e]; cbn; done.
  - destruct outcome as [[p st]|e]; cbn; done.
Qed.

Lemma get_external_addresses_last address l :
  get_external_addresses address (Some 1) None None = Ok l →
  ∃ a, subscript_last l = Ok a.
Proof.
  rewrite get_external_addresses_eq.
  destruct (host_and_ports address 1 None) as [[[host port] sub_ports]|e]; [|discriminate].
  intros [= <-]. unfold subscript_last.
  destruct (last _) as [a|] eqn:Hl; [eauto|].
  apply last_None in Hl. discriminate.
Qed.

(** C10.  On a pool whose Store is empty [append_sub_pool] raises
    and leaves the world as it was: no entry registered, nothing
    spawned.  The exception is the [IndexError] of reading the last
    process index whenever the new worker's address is given or can be
    derived from the pool's own. *)
Theorem append_sub_pool_empty_store
    has_unix_server process_index outcome label internal_address external_address
    env modules suspend_sigint use_uvloop logging_conf start_method kwargs w :
  _config (now w) = [] →
  (∃ e, append_sub_pool has_unix_server process_index outcome label
          internal_address external_address env modules suspend_sigint
          use_uvloop logging_conf start_method kwargs w = (w, Raise e))
  ∧ (Py.truthy_str external_address = true
     ∨ (∃ l, get_external_addresses (self_external_address (now w)) (Some 1) None None
             = Ok l) →
     append_sub_pool has_unix_server process_index outcome label
       internal_address external_address env modules suspend_sigint
       use_uvloop logging_conf start_method kwargs w = (w, raise IndexError)).
Proof.
  intros Hempty. unfold append_sub_pool. run_M. rewrite Hempty. cbn.
  destruct (Py.truthy_str external_address) eqn:Ht; cbn.
  - split; [eexists; reflexivity|]. intros _. reflexivity.
  - destruct (get_external_addresses (self_external_address (now w)) (Some 1) None None)
      as [l|e] eqn:Hg; cbn.
    + destruct (get_external_addresses_last _ _ Hg) as [a Ha]. rewrite Ha. cbn.
      split; [eexists; reflexivity|]. intros _. reflexivity.
    + split; [eexists; reflexivity|]. intros [?|[l Hl]]; discriminate.
Qed.

Lemma append_sub_pool_empty_store_witness :
  append_sub_pool true 7 (Ok (102%nat, success_status ["127.0.0.1:40001"%string]))
    None None None None None None None None None None
    (World (set_config [] sample_state) [])
  = (World (set_config [] sample_state) [], raise IndexError).
Proof.
  apply (append_sub_pool_empty_store true 7
           (Ok (102%nat, success_status ["127.0.0.1:40001"%string]))
           None None None None None None None None None None
           (World (set_config [] sample_state) []) eq_refl).
  right. eexists. reflexivity.
Defined.




(** ** Waiting for a batch of launches *)

Lemma wait_sub_pools_ready_loop_app results rest processes ext_addresses err :
  Forall carries_error results →
  wait_sub_pools_ready_loop (map Ok results ++ rest) processes ext_addresses err
  = wait_sub_pools_ready_loop rest
      (processes ++ map fst results)
      (ext_addresses
       ++ map (λ r, external_addresses r.2)
              (filter (λ r, reports_failure r = false) results))
      (batch_error err results).
Proof.
  intros Hwf. revert processes ext_addresses err.
  induction Hwf as [|[p st] results Hr Hwf IH]; intros processes ext_addresses err.
  - cbn. rewrite !app_nil_r. reflexivity.
  - cbn [map app wait_sub_pools_ready_loop mbind result_bind batch_error fold_left].
    unfold reported_error, reports_failure. cbn [snd fst].
    rewrite filter_cons. unfold reports_failure. cbn [snd].
    case_bool_decide as Hst.
    + destruct (Hr Hst) as [e He]. cbn in He. rewrite He. cbn [fmap option_fmap option_map].
      rewrite IH. rewrite decide_False by discriminate.
      rewrite <- List.app_assoc. reflexivity.
    + rewrite IH. rewrite decide_True by reflexivity.
      cbn [map]. rewrite <- !List.app_assoc. reflexivity.
Qed.

Lemma wait_sub_pools_ready_loop_results results processes ext_addresses err :
  Forall carries_error results →
  wait_sub_pools_ready_loop (map Ok results) processes ext_addresses err
  = Ok (processes ++ map fst results,
        ext_addresses
        ++ map (λ r, external_addresses r.2)
               (filter (λ r, reports_failure r = false) results),
        batch_error err results).
Proof.
  intros Hwf.
  rewrite <- (app_nil_r (map Ok results)).
  rewrite (wait_sub_pools_ready_loop_app _ _ _ _ _ Hwf). reflexivity.
Qed.

(** Outside C5: when awaiting a launch raises instead of yielding a
    status, that exception leaves [wait_sub_pools_ready] at once; the
    processes collected so far are not killed, whatever they
    reported. *)
Lemma wait_sub_pools_ready_task_raises results e rest w :
  Forall carries_error results →
  wait_sub_pools_ready (map Ok results ++ Raise e :: rest) w = (w, Raise e).
Proof.
  intros Hwf. unfold wait_sub_pools_ready. run_M.
  rewrite (wait_sub_pools_ready_loop_app _ _ _ _ _ Hwf). reflexivity.
Qed.

Lemma batch_error_member results :
  Forall carries_error results →
  ∀ err,
    batch_error err results = err
    ∨ ∃ p st e, batch_error err results = Some (with_traceback e (traceback st))
                ∧ (p, st) ∈ results ∧ status st = Some 1 ∧ error st = Some e.
Proof.
  induction 1 as [|[p st] results Hr Hwf IH]; intros err; [left; reflexivity|].
  cbn [batch_error fold_left]. unfold reported_error, reports_failure. cbn [snd].
  case_bool_decide as Hst.
  - destruct (Hr Hst) as [e He]. cbn in He. rewrite He. cbn [fmap option_fmap option_map].
    destruct (IH (Some (with_traceback e (traceback st)))) as [Heq|(q & st' & e' & Heq & Hin & ?)].
    + right. exists p, st, e. fold (batch_error (Some (with_traceback e (traceback st))) results).
      split; [exact Heq|]. split; [left|done].
    + right. exists q, st', e'. split; [exact Heq|]. split; [by right|done].
  - destruct (IH err) as [Heq|(q & st' & e' & Heq & Hin & ?)].
    + left. exact Heq.
    + right. exists q, st', e'. split; [exact Heq|]. split; [by right|done].
Qed.

Lemma batch_error_failure results :
  Forall carries_error results →
  Exists (λ r, reports_failure r = true) results →
  ∀ err, ∃ p st e,
    batch_error err results = Some (with_traceback e (traceback st))
    ∧ (p, st) ∈ results ∧ status st = Some 1 ∧ error st = Some e.
Proof.
  intros Hwf Hex. induction Hex as [[p st] results Hf|[p st] results Hex IH]; intros err.
  - apply Forall_cons in Hwf as [Hr Hwf].
    cbn [batch_error fold_left]. unfold reported_error. rewrite Hf.
    unfold reports_failure in Hf. apply bool_decide_eq_true in Hf. cbn [snd] in *.
    destruct (Hr Hf) as [e He]. cbn in He. rewrite He. cbn [fmap option_fmap option_map].
    destruct (batch_error_member results Hwf (Some (with_traceback e (traceback st))))
      as [Heq|(q & st' & e' & Heq & Hin & ?)].
    + exists p, st, e. split; [exact Heq|]. split; [left|done].
    + exists q, st', e'. split; [exact Heq|]. split; [by right|done].
  - apply Forall_cons in Hwf as [Hr Hwf].
    cbn [batch_error fold_left].
    destruct (IH Hwf (match reported_error (p, st) with
                      | Some e => Some e
                      | None => err
                      end)) as (q & st' & e' & Heq & Hin & ?).
    exists q, st', e'. split; [exact Heq|]. split; [by right|done].
Qed.

Lemma batch_error_success results :
  Forall (λ r, reports_failure r = false) results →
  batch_error None results = None
  ∧ filter (λ r, reports_failure r = false) results = results.
Proof.
  induction 1 as [|r results Hr Hall [IH1 IH2]]; [done|].
  cbn [batch_error fold_left]. unfold reported_error. rewrite Hr.
  rewrite filter_cons, decide_True by exact Hr. rewrite IH2. done.
Qed.

Lemma kill_signals_cons s q processes :
  kill_signals s (q :: processes)
  = map snd (sending SIGKILL q s) ++ kill_signals s processes.
Proof.
  unfold kill_signals, sending. rewrite filter_cons.
  destruct (decide (q ∉ reaped s)) as [Hq|Hq].
  - rewrite bool_decide_eq_false_2 by exact Hq. reflexivity.
  - rewrite bool_decide_eq_true_2; [reflexivity|].
    destruct (decide (q ∈ reaped s)); [assumption | contradiction].
Qed.

Lemma kill_signals_reaped s s' processes :
  reaped s = reaped s' → kill_signals s processes = kill_signals s' processes.
Proof. unfold kill_signals. intros ->. reflexivity. Qed.

Lemma kill_signals_fresh s processes :
  Forall (λ p, p ∉ reaped s) processes →
  kill_signals s processes = map (EvSignal SIGKILL) processes.
Proof.
  intros Hall. unfold kill_signals. f_equal.
  induction Hall as [|p processes Hp _ IH]; [reflexivity|].
  rewrite filter_cons, decide_True by exact Hp. by rewrite IH.
Qed.

Lemma sent_through_kill_alive p q s :
  q ∈ alive (sent_through SIGKILL p s) ↔ q ∈ alive s ∧ ¬ (q = p ∧ p ∉ reaped s).
Proof.
  unfold sent_through. case_bool_decide as Hr.
  - tauto.
  - unfold deliver. cbn. rewrite elem_of_difference, elem_of_singleton. tauto.
Qed.

(** Killing every process of a list, in order: [kill] goes through
    each handle, and changes no handle and neither table. *)
Lemma kill_all processes w :
  ∃ w', for_each processes Process_kill w = (w', Ok tt)
        ∧ events w' = events w ++ kill_signals (now w) processes
        ∧ reaped (now w') = reaped (now w)
        ∧ _config (now w') = _config (now w)
        ∧ sub_processes (now w') = sub_processes (now w)
        ∧ ∀ p, p ∈ alive (now w')
               ↔ p ∈ alive (now w) ∧ ¬ (p ∈ processes ∧ p ∉ reaped (now w)).
Proof.
  revert w. induction processes as [|q processes IH]; intros w.
  - exists w. cbn. unfold ret, kill_signals. cbn. rewrite app_nil_r.
    repeat (split; [done|]). intros p. rewrite elem_of_nil. tauto.
  - cbn [for_each]. unfold Process_kill at 1.
    unfold mbind, M_bind, bind. cbv beta. rewrite _send_signal_run.
    match goal with |- context [for_each processes Process_kill ?w0] =>
      destruct (IH w0) as (w' & Hrun & Hev & Hr & Hc & Hs & Halive) end.
    cbn [now history] in *. rewrite sent_through_reaped in Hr.
    rewrite sent_through_config in Hc. rewrite sent_through_sub_processes in Hs.
    exists w'. rewrite Hrun. split; [reflexivity|]. split.
    + rewrite Hev. unfold events. cbn [history]. rewrite map_app, <- List.app_assoc.
      rewrite kill_signals_cons.
      rewrite (kill_signals_reaped _ (now w)) by apply sent_through_reaped.
      reflexivity.
    + split; [exact Hr|]. split; [exact Hc|]. split; [exact Hs|].
      intros p. rewrite Halive, sent_through_kill_alive, sent_through_reaped.
      rewrite elem_of_cons. destruct (decide (p = q)) as [->|Hne]; tauto.
Qed.

(** X21.  For a batch in which awaiting every launch gave its
    handle and status (a failure status carrying its error): if
    some launch reported failure, [kill] is called on every handle of
    the batch, in order, and then the error of a failing launch is
    raised with its traceback attached; if none did, the call returns
    every handle and every reported address list, and does nothing
    else.  [kill] sends [SIGKILL] through every handle that does not
    know its process gone, as none of a fresh launch does, and those
    processes are not running afterwards. *)
Theorem wait_sub_pools_ready_all_or_nothing results w :
  Forall carries_error results →
  (Exists (λ r, reports_failure r = true) results →
   ∃ w' p st e,
     wait_sub_pools_ready (map Ok results) w
     = (w', Raise (with_traceback e (traceback st)))
     ∧ (p, st) ∈ results ∧ status st = Some 1 ∧ error st = Some e
     ∧ events w' = events w ++ kill_signals (now w) (map fst results)
     ∧ (Forall (λ q, q ∉ reaped (now w)) (map fst results) →
        events w' = events w ++ map (EvSignal SIGKILL) (map fst results)
        ∧ ∀ q, q ∈ map fst results → q ∉ alive (now w')))
  ∧ (Forall (λ r, reports_failure r = false) results →
     wait_sub_pools_ready (map Ok results) w
     = (w, Ok (map fst results, map (λ r, external_addresses r.2) results))).
Proof.
  intros Hwf. split.
  - intros Hex.
    destruct (batch_error_failure results Hwf Hex None) as (p & st & e & Herr & Hin & Hst & He).
    destruct (kill_all (map fst results) w) as (w' & Hrun & Hev & _ & _ & _ & Halive).
    exists w', p, st, e.
    unfold wait_sub_pools_ready. run_M.
    rewrite (wait_sub_pools_ready_loop_results _ _ _ _ Hwf), Herr. cbn.
    rewrite Hrun. cbn. split; [reflexivity|]. split; [exact Hin|].
    split; [exact Hst|]. split; [exact He|]. split; [exact Hev|].
    intros Hfresh. split.
    + rewrite Hev, (kill_signals_fresh _ _ Hfresh). reflexivity.
    + intros q Hq Hal. apply Halive in Hal as [_ Hn]. apply Hn. split; [exact Hq|].
      rewrite Forall_forall in Hfresh. by apply Hfresh.
  - intros Hall. destruct (batch_error_success results Hall) as [Herr Hfilter].
    unfold wait_sub_pools_ready. run_M.
    rewrite (wait_sub_pools_ready_loop_results _ _ _ _ Hwf), Herr, Hfilter. reflexivity.
Qed.

Lemma wait_sub_pools_ready_all_or_nothing_witness :
  let boom := Exn (UserError 1) (Some ["create"%string]) in
  let results := [(201%nat, success_status ["127.0.0.1:40001"%string]);
                  (202%nat, failure_status boom);
                  (203%nat, success_status ["127.0.0.1:40003"%string])] in
  ∃ w' p st e,
    wait_sub_pools_ready (map Ok results) sample_world
    = (w', Raise (with_traceback e (traceback st)))
    ∧ (p, st) ∈ results ∧ status st = Some 1 ∧ error st = Some e
    ∧ events w' = events sample_world
                  ++ map (EvSignal SIGKILL) [201%nat; 202%nat; 203%nat]
    ∧ ∀ q, q ∈ [201%nat; 202%nat; 203%nat] → q ∉ alive (now w').
Proof.
  intros boom results.
  assert (Forall carries_error results) as Hwf.
  { repeat constructor; intros H; cbn in *; first [discriminate | eauto]. }
  assert (Forall (λ q, q ∉ reaped (now sample_world)) (map fst results)) as Hfresh.
  { repeat constructor; cbn; apply not_elem_of_empty. }
  destruct (proj1 (wait_sub_pools_ready_all_or_nothing results sample_world Hwf))
    as (w' & p & st & e & Hrun & Hin & Hst & He & _ & Hkill).
  { apply Exists_cons_tl, Exists_cons_hd. reflexivity. }
  destruct (Hkill Hfresh) as [Hev Hdead].
  exists w', p, st, e. repeat (split; [assumption|]). exact Hdead.
Defined.

(** C5, at its failing input.  Launch 201 reports failure and
    awaiting the next launch raises: [wait_sub_pools_ready] leaves its
    loop with that exception and never comes to the loop that kills.
    Process 201, which is running, gets no signal, and the error
    raised is not the one the worker reported. *)
Lemma wait_sub_pools_ready_raising_launch :
  let boom := Exn (UserError 1) (Some ["create"%string]) in
  let w := World (set_alive ({[ 201%nat ]} ∪ alive sample_state) sample_state) [] in
  let batch := [Ok (201%nat, failure_status boom);
                Raise (new_exn OSError);
                Ok (203%nat, success_status ["127.0.0.1:40003"%string])] in
  reports_failure (201%nat, failure_status boom) = true
  ∧ snd (wait_sub_pools_ready batch w) = Raise (new_exn OSError)
  ∧ events (fst (wait_sub_pools_ready batch w)) = []
  ∧ bool_decide (201%nat ∈ alive (now (fst (wait_sub_pools_ready batch w)))) = true.
Proof. vm_compute. repeat split; reflexivity. Qed.

(** ** Recovering a worker *)

(** A launch that returns has spawned once, with the given start
    method, and has put back [os.environ]; the pool's tables are
    untouched. *)
Lemma start_sub_pool_returns outcome config process_index start_method w w1 p st :
  start_sub_pool outcome config process_index start_method w = (w1, Ok (p, st)) →
  outcome = Ok (p, st)
  ∧ events w1 = events w ++ [EvSpawn process_index start_method]
  ∧ _config (now w1) = _config (now w)
  ∧ sub_processes (now w1) = sub_processes (now w)
  ∧ _allocated_actors (now w1) = _allocated_actors (now w)
  ∧ _auto_recover (now w1) = _auto_recover (now w)
  ∧ os_environ (now w1) = os_environ (now w).
Proof.
  destruct w as [s h].
  unfold start_sub_pool, _pre_set_env_in_main, start_pool_in_process, events. run_M.
  destruct (get_pool_config config process_index) as [conf|e]; cbn; [|discriminate].
  destruct (enable_pre_set_env (os_environ s)) as [enable|e]; cbn; [|discriminate].
  destruct (negb enable || negb (truthy_env (Conf.env conf))); cbn;
    destruct outcome as [[p' st']|e]; cbn; try discriminate;
    intros [= <- <- <-]; cbn; rewrite map_app; done.
Qed.

Lemma replay_calls address (actors : list (string * (string * CreateActorMessage))) w :
  for_each actors (λ '(_, (_, message)), call address message) w
  = (World (now w)
       (history w ++ map (λ a, (now w, EvCall address a.2.2)) actors), Ok tt).
Proof.
  revert w. induction actors as [|[id [ref message]] actors IH]; intros [s h].
  - cbn. unfold ret. rewrite app_nil_r. reflexivity.
  - cbn [for_each]. unfold bind. unfold call at 1. unfold emit. cbn [now history].
    rewrite IH. cbn [now history map snd]. rewrite <- List.app_assoc. reflexivity.
Qed.

(** C6.  When the respawn of a registered address returns a worker
    that did not report failure, [recover_sub_pool] has spawned it
    with the [spawn] method and stores the new handle under the
    address.  Under the policy ["actor"] it then sends the creation
    message of every actor recorded for the address, once each, in
    recording order; under any other policy it sends nothing. *)
Theorem recover_sub_pool_replay outcome address w process_index w1 p st actors :
  get_process_index (_config (now w)) address = Ok process_index →
  start_sub_pool outcome (_config (now w)) process_index (Some "spawn"%string) w
  = (w1, Ok (p, st)) →
  reports_failure (p, st) = false →
  (_auto_recover (now w) = "actor"%string →
   _allocated_actors (now w) !! address = Some actors) →
  ∃ w',
    recover_sub_pool outcome address w = (w', Ok tt)
    ∧ sub_processes (now w') = <[address := p]> (sub_processes (now w))
    ∧ _config (now w') = _config (now w)
    ∧ events w'
      = events w ++ [EvSpawn process_index (Some "spawn"%string)]
        ++ (if decide (_auto_recover (now w) = "actor"%string)
            then map (λ a, EvCall address a.2.2) actors
            else []).
Proof.
  intros Hidx Hstart Hok Hactors.
  destruct (start_sub_pool_returns _ _ _ _ _ _ _ _ Hstart)
    as (_ & Hev & Hc & Hs & Hal & Har & _).
  unfold recover_sub_pool, wait_sub_pools_ready. run_M.
  rewrite Hidx. cbn. rewrite Hstart. cbn.
  unfold reports_failure in Hok. cbn in Hok. rewrite Hok. cbn.
  unfold subscript_first. cbn.
  rewrite Har. destruct (decide (_auto_recover (now w) = "actor"%string)) as [Hpol|Hpol].
  - rewrite bool_decide_eq_true_2 by exact Hpol. cbn.
    rewrite Hal, (Hactors Hpol). rewrite replay_calls. cbn.
    eexists. split; [reflexivity|]. cbn. rewrite Hs, Hc.
    split; [reflexivity|]. split; [reflexivity|].
    unfold events in *. cbn. rewrite map_app, Hev, map_map, <- List.app_assoc.
    reflexivity.
  - rewrite bool_decide_eq_false_2 by exact Hpol. cbn.
    eexists. split; [reflexivity|]. cbn. rewrite Hs, Hc.
    split; [reflexivity|]. split; [reflexivity|].
    unfold events in *. cbn. rewrite Hev. reflexivity.
Qed.

Lemma recover_sub_pool_replay_witness :
  let outcome := Ok (102%nat, success_status ["127.0.0.1:5001"%string]) in
  ∃ w',
    recover_sub_pool outcome "127.0.0.1:5001" sample_world = (w', Ok tt)
    ∧ sub_processes (now w') = <["127.0.0.1:5001"%string := 102%nat]> (sub_processes sample_state)
    ∧ _config (now w') = _config sample_state
    ∧ events w'
      = [EvSpawn 1 (Some "spawn"%string);
         EvCall "127.0.0.1:5001" (sample_message 1);
         EvCall "127.0.0.1:5001" (sample_message 2);
         EvCall "127.0.0.1:5001" (sample_message 3)].
Proof.
  intros outcome.
  destruct (recover_sub_pool_replay outcome "127.0.0.1:5001" sample_world 1
              (fst (start_sub_pool outcome (_config sample_state) 1
                      (Some "spawn"%string) sample_world))
              102%nat (success_status ["127.0.0.1:5001"%string])
              [("a"%string, ("ref-a"%string, sample_message 1));
               ("b"%string, ("ref-b"%string, sample_message 2));
               ("c"%string, ("ref-c"%string, sample_message 3))])
    as (w' & Hrun & Hs & Hc & Hev).
  - reflexivity.
  - vm_compute. reflexivity.
  - reflexivity.
  - intros _. reflexivity.
  - exists w'. split; [exact Hrun|]. split; [exact Hs|]. split; [exact Hc|].
    exact Hev.
Defined.

(** ** The worker bootstrap *)



(** ** Concurrent launches and [os.environ] *)

(** With the flag off, or without an [env], the context manager is
    the body alone. *)
Lemma pre_set_env_noop {A} env (body : MainM A) w enable :
  enable_pre_set_env (os_environ (now w)) = Ok enable →
  enable = false ∨ truthy_env env = false →
  _pre_set_env_in_main env body w = body w.
Proof.
  intros Hen Hoff. unfold _pre_set_env_in_main. run_M. rewrite Hen. cbn.
  destruct Hoff as [-> | ->]; [reflexivity|].
  rewrite orb_true_r. reflexivity.
Qed.

(** A launch that runs on its own leaves [os.environ] as it found
    it, whatever the flag, the [env] and the outcome of the spawn. *)
Lemma launch_restores_environ env outcome process_index start_method w :
  os_environ (now (fst (_pre_set_env_in_main env
     (start_pool_in_process outcome process_index start_method) w)))
  = os_environ (now w).
Proof.
  destruct w as [s h]. unfold _pre_set_env_in_main, start_pool_in_process. run_M.
  destruct (enable_pre_set_env (os_environ s)) as [enable|e]; cbn; [|done].
  destruct (negb enable || negb (truthy_env env)); cbn;
    destruct outcome as [[p st]|e]; cbn; done.
Qed.

Module LaunchFacts.
Import Launches.

(** A launch that runs alone puts [os.environ] back, whether the
    flag is set or not and whether the spawn fails or not. *)
Lemma single_launch_restores environ0 e fails :
  environ (run [0%nat; 0%nat] (start environ0 [launch e fails])) = environ0.
Proof.
  unfold start, launch. cbn.
  destruct (enable_pre_set_env environ0) as [enable|x]; cbn; [|reflexivity].
  destruct (negb enable || negb (truthy_env e)); reflexivity.
Qed.

(** With the flag off, or with no [env], a launch never touches
    [os.environ] nor the lock. *)
Lemma step_noop i sys t enable :
  tasks sys !! i = Some t →
  at_ t = Entry →
  enable_pre_set_env (environ sys) = Ok enable →
  enable = false ∨ truthy_env (env t) = false →
  step i sys = Some (set_task i (at_pc (Spawning None) t) sys).
Proof.
  intros Ht Hat Hen Hoff. unfold step. rewrite Ht. cbn. rewrite Hat, Hen.
  destruct Hoff as [-> | ->]; [reflexivity|].
  rewrite orb_true_r. reflexivity.
Qed.

(** Moving one launch changes the number of lock holders by what
    that launch contributes. *)
Lemma holders_insert (l : list task) i t p :
  l !! i = Some t →
  (length (List.filter holds_lock (<[i := at_pc p t]> l))
   + (if holding (at_ t) then 1 else 0)
   = length (List.filter holds_lock l) + (if holding p then 1 else 0))%nat.
Proof.
  revert i. induction l as [|u l IH]; intros [|i]; cbn; try discriminate.
  - intros [= ->]. unfold holds_lock. cbn.
    destruct (holding (at_ t)), (holding p); cbn; lia.
  - intros Hi. specialize (IH i Hi). cbn in IH.
    destruct (holds_lock u); cbn; [f_equal|]; exact IH.
Qed.

Ltac holders Ht Hat p :=
  let H := fresh "H" in
  pose proof (holders_insert _ _ _ p Ht) as H;
  rewrite Hat in H; cbn [holding] in H.

Lemma step_lock_invariant i sys sys' :
  lock_invariant sys → step i sys = Some sys' → lock_invariant sys'.
Proof.
  unfold lock_invariant, step. intros Hinv.
  destruct (tasks sys !! i) as [t|] eqn:Ht; cbn; [|discriminate].
  destruct (at_ t) as [|g|[g|]|f] eqn:Hat.
  - destruct (enable_pre_set_env (environ sys)) as [enable|x].
    + destruct (negb enable || negb (truthy_env (env t))).
      * intros [= <-]. cbn. holders Ht Hat (Spawning None). lia.
      * destruct (locked sys) eqn:Hl; cbn.
        -- intros [= <-]. cbn. rewrite ?Hl.
           holders Ht Hat (WaitingLock (environ sys)). lia.
        -- case_bool_decide; intros [= <-]; cbn; rewrite ?Hl.
           ++ holders Ht Hat (Spawning (Some (environ sys))). lia.
           ++ holders Ht Hat (WaitingLock (environ sys)). lia.
    + intros [= <-]. cbn. holders Ht Hat (Finished true). lia.
  - destruct (waiters sys) as [|j rest]; [discriminate|].
    destruct (locked sys) eqn:Hl; cbn; [discriminate|].
    case_bool_decide; [|discriminate]. intros [= <-]. cbn.
    holders Ht Hat (Spawning (Some g)). lia.
  - intros [= <-]. cbn. holders Ht Hat (Finished (spawn_fails t)).
    destruct (locked sys); lia.
  - intros [= <-]. cbn. holders Ht Hat (Finished (spawn_fails t)). lia.
  - discriminate.
Qed.

Lemma run_lock_invariant schedule sys :
  lock_invariant sys → lock_invariant (run schedule sys).
Proof.
  revert sys. induction schedule as [|i schedule IH]; intros sys Hinv; [exact Hinv|].
  cbn. apply IH. destruct (step i sys) as [sys'|] eqn:Hstep; cbn; [|exact Hinv].
  exact (step_lock_invariant _ _ _ Hinv Hstep).
Qed.

(** X20.  Launches serialize: under every schedule, at most one launch is
    inside the locked body at any time. *)
Lemma launches_serialize schedule environ0 ts :
  Forall (λ t, at_ t = Entry) ts →
  (length (List.filter holds_lock (tasks (run schedule (start environ0 ts)))) ≤ 1)%nat.
Proof.
  intros Hentry.
  assert (lock_invariant (start environ0 ts)) as Hinv.
  { unfold lock_invariant, start. cbn.
    induction Hentry as [|t ts Ht _ IH]; [reflexivity|].
    cbn. unfold holds_lock at 1. rewrite Ht. exact IH. }
  pose proof (run_lock_invariant schedule _ Hinv) as H. unfold lock_invariant in H.
  destruct (locked _); lia.
Qed.

(** C8, at its failing input.  Two launches with the flag set: the
    second enters while the first holds the lock, so the copy it
    takes of [os.environ] already has the first worker's variable;
    when both have finished and the lock is free, that variable is
    still set in the main process. *)
Theorem concurrent_launches_leak_environment :
  let final := run [0%nat; 1%nat; 0%nat; 1%nat; 1%nat] two_launches in
  forallb is_finished (tasks final) = true
  ∧ locked final = false
  ∧ environ two_launches !! "CUDA_VISIBLE_DEVICES"%string = None
  ∧ environ final !! "CUDA_VISIBLE_DEVICES"%string = Some "0"%string.
Proof. vm_compute. repeat split; reflexivity. Qed.

End LaunchFacts.

(** * Further properties *)

(** ** More on the address allocator *)

Lemma append_assoc_str (a b c : string) : (a +:+ b) +:+ c = a +:+ (b +:+ c).
Proof.
  induction a as [|x a IH]; [reflexivity|].
  change (String x a +:+ b) with (String x (a +:+ b)).
  change (String x (a +:+ b) +:+ c) with (String x ((a +:+ b) +:+ c)).
  rewrite IH. reflexivity.
Qed.

Lemma format_address_zero_assoc prefix host port :
  format_address "" (prefix +:+ host) port = format_address prefix host port.
Proof. unfold format_address. rewrite !append_assoc_str. reflexivity. Qed.

(** X1.  The allocator is closed under its own answers: every
    address it returns is a valid base address, and allocating from
    it with no port list gives that very address back as the main
    address, followed by one address with port 0 on the same host per
    worker. *)
Theorem get_external_addresses_closed address n ports schemes addresses a m :
  get_external_addresses address (Some n) ports schemes = Ok addresses →
  a ∈ addresses →
  ∃ prefix host port,
    a = format_address prefix host port
    ∧ get_external_addresses a (Some m) None None
      = Ok (a :: repeat (format_address prefix host 0) (Z.to_nat m)).
Proof.
  rewrite get_external_addresses_eq.
  destruct (host_and_ports address n ports) as [[[host port] sub_ports]|e];
    [|discriminate].
  intros [= <-] Hin. apply list_elem_of_fmap in Hin as [[port' prefix] [-> _]].
  exists prefix, host, port'. split; [reflexivity|].
  rewrite get_external_addresses_of_allocated, !format_address_zero_assoc.
  reflexivity.
Qed.

Lemma get_external_addresses_closed_witness :
  ∃ prefix host port,
    "ucx://10.0.0.1:81"%string = format_address prefix host port
    ∧ get_external_addresses "ucx://10.0.0.1:81" (Some 1) None None
      = Ok ("ucx://10.0.0.1:81"%string
            :: repeat (format_address prefix host 0) (Z.to_nat 1)).
Proof.
  apply (get_external_addresses_closed "10.0.0.1:80" 2 (Some [81; 82])
           (Some [None; Some "ucx"; None])%string
           ["10.0.0.1:80"; "ucx://10.0.0.1:81"; "10.0.0.1:82"]%string
           "ucx://10.0.0.1:81" 1 eq_refl).
  apply list_elem_of_further, list_elem_of_here.
Defined.

Lemma zip_prefix_list_map host (ports : list Z) (schemes : list (option string)) :
  map (λ '(port, prefix), format_address prefix host port)
      (zip_prefix ports (PrefixList (map scheme_prefix schemes)))
  = zip_with (λ scheme a, scheme_prefix scheme +:+ a) schemes
      (map (format_address "" host) ports).
Proof.
  revert schemes. induction ports as [|port ports IH]; intros [|scheme schemes];
    cbn; try reflexivity.
  rewrite <- IH. reflexivity.
Qed.

(** X2.  A non-empty [schemes] list does nothing but put each
    scheme's prefix in front of the address at the same position of
    the scheme-less answer; the answer stops where the shorter of the
    two lists ends, and an error of the scheme-less call is the error
    of the call. *)
Theorem get_external_addresses_schemes_prefix address n ports schemes :
  schemes ≠ [] →
  get_external_addresses address (Some n) ports (Some schemes)
  = match get_external_addresses address (Some n) ports None with
    | Ok plain =>
        Ok (zip_with (λ scheme a, scheme_prefix scheme +:+ a) schemes plain)
    | Raise e => Raise e
    end.
Proof.
  intros Hne. rewrite !get_external_addresses_eq.
  destruct (host_and_ports address n ports) as [[[host port] sub_ports]|e];
    [|reflexivity].
  assert (Py.truthy_list (Some schemes) = true) as ->
    by (destruct schemes; [contradiction|reflexivity]).
  cbn [negb default Py.truthy_list].
  rewrite zip_prefix_list_map, zip_prefix_repeat, map_map. reflexivity.
Qed.

Lemma get_external_addresses_schemes_prefix_witness :
  get_external_addresses "10.0.0.1:80" (Some 2) (Some [81; 82])
    (Some [Some "ucx"; None; Some ""])%string
  = Ok ["ucx://10.0.0.1:80"; "10.0.0.1:81"; "10.0.0.1:82"]%string.
Proof.
  rewrite (get_external_addresses_schemes_prefix "10.0.0.1:80" 2 (Some [81; 82])
             [Some "ucx"; None; Some ""]%string ltac:(discriminate)).
  reflexivity.
Defined.

(** X3.  A process count below one is not rejected.  With no port
    list and no schemes, a base address with a port gives the main
    address alone; a bare host gives one address with port 0 when the
    count is 0 and an [IndexError] when it is negative. *)
Theorem get_external_addresses_no_workers address n ports schemes :
  n <= 0 →
  Py.truthy_list ports = false →
  Py.truthy_list schemes = false →
  (∀ host port_str port,
     Py.rsplit1 ":" address = Some (host, port_str) →
     Py.int_of_str port_str = Some port →
     get_external_addresses address (Some n) ports schemes
     = Ok [format_address "" host port])
  ∧ (Py.contains ":" address = false →
     get_external_addresses address (Some n) ports schemes
     = if n =? 0 then Ok [format_address "" address 0] else raise IndexError).
Proof.
  intros Hn Hp Hs. split.
  - intros host port_str port Hsplit Hint.
    rewrite get_external_addresses_eq, Hs.
    rewrite (host_and_ports_with_port _ _ _ _ _ _ Hsplit Hint), Hp.
    unfold Py.list_mul. replace (Z.to_nat n) with 0%nat by lia. reflexivity.
  - intros Hc. rewrite get_external_addresses_eq, Hs.
    unfold host_and_ports. rewrite Hc, Hp. cbn [andb negb]. unfold Py.list_mul.
    destruct (Z.eqb_spec n 0) as [->|Hne]; [reflexivity|].
    replace (Z.to_nat (n + 1)) with 0%nat by lia. reflexivity.
Qed.

Lemma get_external_addresses_no_workers_witness :
  get_external_addresses "localhost:7000" (Some (-3)) None None
  = Ok ["localhost:7000"%string]
  ∧ get_external_addresses "localhost" (Some (-3)) None None = raise IndexError.
Proof.
  destruct (get_external_addresses_no_workers "localhost:7000" (-3) None None
              ltac:(lia) eq_refl eq_refl) as [H1 _].
  destruct (get_external_addresses_no_workers "localhost" (-3) None None
              ltac:(lia) eq_refl eq_refl) as [_ H2].
  split.
  - exact (H1 "localhost"%string "7000"%string 7000 eq_refl eq_refl).
  - exact (H2 eq_refl).
Defined.

Lemma str_of_int_inj i j : Py.str_of_int i = Py.str_of_int j → i = j.
Proof.
  intros H. apply (f_equal Py.int_of_str) in H.
  rewrite !int_of_str_of_int in H. congruence.
Qed.

(** X4.  Where Unix sockets are available the internal address is
    made from the process index alone, and two different indices
    never get the same one; elsewhere it is the external address
    as given. *)
Theorem gen_internal_address_distinct i j a b :
  i ≠ j →
  gen_internal_address true i a ≠ gen_internal_address true j b
  ∧ gen_internal_address true i a = gen_internal_address true i b
  ∧ gen_internal_address false i a = a.
Proof.
  intros Hij. split; [|split; reflexivity].
  unfold gen_internal_address. intros [= H]. apply Hij, str_of_int_inj, H.
Qed.

Lemma gen_internal_address_distinct_witness :
  gen_internal_address true 1 (Some "127.0.0.1:0"%string)
  ≠ gen_internal_address true 2 (Some "127.0.0.1:0"%string).
Proof.
  exact (proj1 (gen_internal_address_distinct 1 2 (Some "127.0.0.1:0"%string)
                  (Some "127.0.0.1:0"%string) ltac:(lia))).
Defined.

(** ** More on shutting a worker down *)

Lemma deliver_alive_other sig p q s :
  q ≠ p → q ∈ alive (deliver sig p s) ↔ q ∈ alive s.
Proof.
  intros Hq. unfold deliver.
  destruct sig; try case_bool_decide; cbn;
    rewrite ?elem_of_difference, ?elem_of_singleton; tauto.
Qed.

Lemma deliver_frame sig p s :
  os_environ (deliver sig p s) = os_environ s
  ∧ _allocated_actors (deliver sig p s) = _allocated_actors s
  ∧ stubborn (deliver sig p s) = stubborn s.
Proof. unfold deliver. destruct sig; try case_bool_decide; done. Qed.

Lemma after_sigint_alive_other win p q s :
  q ≠ p → q ∈ alive (after_sigint win p s) ↔ q ∈ alive s.
Proof.
  intros Hq. unfold after_sigint. destruct win; [done|].
  case_bool_decide; [by apply deliver_alive_other | done].
Qed.

Lemma after_sigint_frame win p s :
  os_environ (after_sigint win p s) = os_environ s
  ∧ _allocated_actors (after_sigint win p s) = _allocated_actors s
  ∧ stubborn (after_sigint win p s) = stubborn s.
Proof.
  unfold after_sigint. destruct win; [done|].
  case_bool_decide; [apply deliver_frame | done].
Qed.

Lemma sent_through_alive_other sig p q s :
  q ≠ p → q ∈ alive (sent_through sig p s) ↔ q ∈ alive s.
Proof.
  intros Hq. unfold sent_through.
  case_bool_decide; [done | by apply deliver_alive_other].
Qed.

Lemma sent_through_frame sig p s :
  os_environ (sent_through sig p s) = os_environ s
  ∧ _allocated_actors (sent_through sig p s) = _allocated_actors s
  ∧ stubborn (sent_through sig p s) = stubborn s.
Proof. unfold sent_through. case_bool_decide; [done | apply deliver_frame]. Qed.

Lemma poll_frame p s :
  os_environ (poll p s) = os_environ s
  ∧ _allocated_actors (poll p s) = _allocated_actors s
  ∧ stubborn (poll p s) = stubborn s.
Proof. unfold poll. case_bool_decide; done. Qed.

(** X5.  [kill_sub_pool] acts on its own process only: every other
    process is running afterwards exactly if it was before, and the
    Store, [sub_processes], the allocated-actor registry and
    [os.environ] are as they were. *)
Theorem kill_sub_pool_frame _is_windows p force w :
  let s' := now (fst (kill_sub_pool _is_windows p force w)) in
  (∀ q, q ≠ p → q ∈ alive s' ↔ q ∈ alive (now w))
  ∧ _config s' = _config (now w)
  ∧ sub_processes s' = sub_processes (now w)
  ∧ _allocated_actors s' = _allocated_actors (now w)
  ∧ os_environ s' = os_environ (now w).
Proof.
  rewrite kill_sub_pool_run. destruct force; cbn [fst now].
  - split; [intros q Hq; rewrite poll_alive; by apply sent_through_alive_other|].
    rewrite poll_config, poll_sub_processes, sent_through_config,
      sent_through_sub_processes.
    destruct (poll_frame p (sent_through SIGKILL p (now w))) as (-> & -> & _).
    destruct (sent_through_frame SIGKILL p (now w)) as (-> & -> & _). done.
  - set (s1 := after_sigint _is_windows p (now w)).
    set (s2 := sent_through SIGTERM p s1).
    set (s3 := poll p s2).
    set (s4 := sent_through SIGKILL p s3).
    split.
    + intros q Hq. rewrite poll_alive. subst s4.
      rewrite sent_through_alive_other by done. subst s3. rewrite poll_alive.
      subst s2. rewrite sent_through_alive_other by done.
      by apply after_sigint_alive_other.
    + rewrite poll_config, poll_sub_processes.
      destruct (poll_frame p s4) as (-> & -> & _). subst s4.
      rewrite sent_through_config, sent_through_sub_processes.
      destruct (sent_through_frame SIGKILL p s3) as (-> & -> & _). subst s3.
      rewrite poll_config, poll_sub_processes.
      destruct (poll_frame p s2) as (-> & -> & _). subst s2.
      rewrite sent_through_config, sent_through_sub_processes.
      destruct (sent_through_frame SIGTERM p s1) as (-> & -> & _). subst s1.
      rewrite after_sigint_config, after_sigint_sub_processes.
      destruct (after_sigint_frame _is_windows p (now w)) as (-> & -> & _). done.
Qed.

Lemma kill_sub_pool_frame_witness :
  let w := World (set_alive {[ 101%nat; 102%nat ]} sample_state) [] in
  102%nat ∈ alive (now (fst (kill_sub_pool false 101%nat false w))).
Proof.
  intros w.
  apply (proj1 (kill_sub_pool_frame false 101%nat false w) 102%nat ltac:(lia)).
  cbn. apply elem_of_union_r, elem_of_singleton. reflexivity.
Defined.

(** ** More on removing a worker *)

(** X6.  [remove_sub_pool] looks the handle up first and the Store
    entry second, both before anything is shut down.  An address
    without a handle is a [KeyError]; an address with a handle that
    the Store does not know raises the Store's error; and whenever
    the call raises, nothing has happened: no signal was sent and
    neither table has changed. *)
Theorem remove_sub_pool_failure _is_windows address timeout force w :
  (sub_processes (now w) !! address = None →
   remove_sub_pool _is_windows address timeout force w = (w, raise KeyError))
  ∧ (∀ p e, sub_processes (now w) !! address = Some p →
            get_process_index (_config (now w)) address = Raise e →
            remove_sub_pool _is_windows address timeout force w = (w, Raise e))
  ∧ (∀ w' e, remove_sub_pool _is_windows address timeout force w = (w', Raise e) →
             w' = w).
Proof.
  split; [|split].
  - intros Hp. unfold remove_sub_pool. run_M. rewrite Hp. reflexivity.
  - intros p e Hp Hidx. unfold remove_sub_pool. run_M. rewrite Hp. cbn.
    rewrite Hidx. reflexivity.
  - intros w' e.
    unfold remove_sub_pool, stop_sub_pool, handle_control_command_sync_config. run_M.
    destruct (sub_processes (now w) !! address) as [p|]; cbn;
      [|intros [= <- _]; reflexivity].
    destruct (get_process_index (_config (now w)) address) as [idx|e0] eqn:Hidx; cbn;
      [|intros [= <- _]; reflexivity].
    pose proof (kill_sub_pool_tables _is_windows p force w) as [Hc _].
    rewrite kill_sub_pool_run in Hc |- *.
    destruct (get_process_index_registered _ _ _ Hidx) as [conf Hconf].
    destruct force; cbn in Hc |- *; unfold remove_pool_config, get_pool_config;
      rewrite Hc, Hconf; cbn; discriminate.
Qed.

Lemma remove_sub_pool_failure_witness :
  remove_sub_pool false "127.0.0.1:9999" None false sample_world
  = (sample_world, raise KeyError).
Proof.
  exact (proj1 (remove_sub_pool_failure false "127.0.0.1:9999" None false sample_world)
           eq_refl).
Defined.

(** ** More on appending a worker *)

Section DictFacts.
Context {V : Type}.
Implicit Types (c : list (Z * V)) (k : Z) (v : V).

Lemma dict_get_set_eq k v c : dict_get k (dict_set k v c) = Some v.
Proof.
  induction c as [|[k' v'] c IH]; cbn.
  - rewrite decide_True by done. reflexivity.
  - destruct (decide (k = k')) as [->|Hne]; cbn.
    + rewrite decide_True by done. reflexivity.
    + rewrite decide_False by done. exact IH.
Qed.

Lemma dict_set_set k v v' c : dict_set k v' (dict_set k v c) = dict_set k v' c.
Proof.
  induction c as [|[k' v''] c IH]; cbn.
  - rewrite decide_True by done. reflexivity.
  - destruct (decide (k = k')) as [->|Hne]; cbn.
    + rewrite decide_True by done. reflexivity.
    + rewrite decide_False by done. rewrite IH. reflexivity.
Qed.

Lemma dict_set_fresh k v c : dict_get k c = None → dict_set k v c = c ++ [(k, v)].
Proof.
  induction c as [|[k' v'] c IH]; cbn; [reflexivity|].
  destruct (decide (k = k')); [discriminate|]. intros H. rewrite (IH H). reflexivity.
Qed.

Lemma dict_del_fresh k v c : dict_get k c = None → dict_del k (c ++ [(k, v)]) = c.
Proof.
  induction c as [|[k' v'] c IH]; cbn.
  - rewrite decide_True by done. reflexivity.
  - destruct (decide (k = k')); [discriminate|]. intros H. rewrite (IH H). reflexivity.
Qed.
End DictFacts.

Lemma get_process_index_fresh c address process_index conf e :
  get_process_index c address = Raise e →
  address ∈ Conf.external_address conf →
  get_process_index (c ++ [(process_index, conf)]) address = Ok process_index.
Proof.
  intros Hc Hin. induction c as [|[k conf'] c IH]; cbn in *.
  - rewrite bool_decide_eq_true_2 by exact Hin. reflexivity.
  - case_bool_decide; [discriminate|]. exact (IH Hc).
Qed.

(** A launch that returns: it spawned once, the new process is
    running, and the rest is as before. *)
Lemma launch_returns env outcome process_index start_method w w1 p st :
  _pre_set_env_in_main env
    (start_pool_in_process outcome process_index start_method) w = (w1, Ok (p, st)) →
  outcome = Ok (p, st)
  ∧ events w1 = events w ++ [EvSpawn process_index start_method]
  ∧ _config (now w1) = _config (now w)
  ∧ sub_processes (now w1) = sub_processes (now w)
  ∧ os_environ (now w1) = os_environ (now w)
  ∧ alive (now w1) = {[p]} ∪ alive (now w).
Proof.
  destruct w as [s h].
  unfold _pre_set_env_in_main, start_pool_in_process, events. run_M.
  destruct (enable_pre_set_env (os_environ s)) as [enable|e]; cbn; [|discriminate].
  destruct (negb enable || negb (truthy_env env)); cbn;
    destruct outcome as [[p' st']|e]; cbn; try discriminate;
    intros [= <- <- <-]; cbn; rewrite map_app; done.
Qed.

(** What a call of [append_sub_pool] that returns has done. *)
Lemma append_sub_pool_returns
    has_unix_server process_index outcome label internal_address external_address
    env modules suspend_sigint use_uvloop logging_conf start_method kwargs w w' a :
  append_sub_pool has_unix_server process_index outcome label
    internal_address external_address env modules suspend_sigint
    use_uvloop logging_conf start_method kwargs w = (w', Ok a) →
  ∃ p st rest internal uvloop logging,
    outcome = Ok (p, st)
    ∧ external_addresses st = Some (a :: rest)
    ∧ _config (now w')
      = add_pool_conf process_index label internal a env modules
          suspend_sigint uvloop logging kwargs (_config (now w))
    ∧ sub_processes (now w') = <[a := p]> (sub_processes (now w))
    ∧ os_environ (now w') = os_environ (now w)
    ∧ alive (now w') = {[p]} ∪ alive (now w)
    ∧ events w'
      = events w ++ [EvAddPoolConf process_index;
                     EvSpawn process_index start_method;
                     EvResetAddress process_index a;
                     EvAttach a p;
                     EvSyncConfig (_config (now w'))].
Proof.
  unfold append_sub_pool.
  set (launch := _pre_set_env_in_main env
                   (start_pool_in_process outcome process_index start_method)).
  unfold attach_sub_process, handle_control_command_sync_config.
  run_M.
  destruct (if Py.truthy_str external_address then _ else _) as [external|e0];
    cbn; [|discriminate].
  destruct (subscript_last (get_process_indexes (_config (now w)))) as [last_index|e0];
    cbn; [|discriminate].
  destruct (get_pool_config (_config (now w)) last_index) as [last_conf|e0];
    cbn; [|discriminate].
  match goal with |- context [launch ?w0] => set (w1 := w0) end.
  destruct (launch w1) as [w2 [[p st]|e0]] eqn:Hlaunch; cbn; [|discriminate].
  apply launch_returns in Hlaunch as (Hout & Hev & Hc & Hs & Henv & Hal).
  subst w1. cbn in Hev, Hc, Hs, Henv, Hal.
  destruct (external_addresses st) as [[|a' rest]|] eqn:Hst;
    unfold subscript_first; cbn; try discriminate.
  unfold reset_pool_external_address, get_pool_config. rewrite Hc.
  unfold add_pool_conf at 1 2. rewrite dict_get_set_eq. cbn.
  intros [= <- <-]. cbn.
  exists p, st, rest. do 3 eexists.
  split; [exact Hout|]. split; [exact Hst|].
  split; [unfold add_pool_conf; rewrite dict_set_set; reflexivity|].
  split; [rewrite Hs; reflexivity|]. split; [exact Henv|]. split; [exact Hal|].
  unfold events in *. cbn. rewrite !map_app, Hev. cbn.
  rewrite map_app, <- !List.app_assoc. reflexivity.
Qed.

(** X7.  When [append_sub_pool] returns an address, that address is
    the first one the new worker reported; the worker's handle is
    stored under it and the process is running; the Store entry of
    the new process index lists that address (not the placeholder)
    together with the [env] of the call; [os.environ] is as before;
    and the call has, in this order, registered the entry, spawned the
    worker, rewritten the address, attached the handle and handed the
    final Store to the synchronizer. *)
Theorem append_sub_pool_success
    has_unix_server process_index outcome label internal_address external_address
    env modules suspend_sigint use_uvloop logging_conf start_method kwargs w w' a :
  append_sub_pool has_unix_server process_index outcome label
    internal_address external_address env modules suspend_sigint
    use_uvloop logging_conf start_method kwargs w = (w', Ok a) →
  ∃ p st rest conf,
    outcome = Ok (p, st)
    ∧ external_addresses st = Some (a :: rest)
    ∧ sub_processes (now w') !! a = Some p
    ∧ p ∈ alive (now w')
    ∧ get_pool_config (_config (now w')) process_index = Ok conf
    ∧ Conf.external_address conf = [a]
    ∧ Conf.env conf = env
    ∧ os_environ (now w') = os_environ (now w)
    ∧ events w'
      = events w ++ [EvAddPoolConf process_index;
                     EvSpawn process_index start_method;
                     EvResetAddress process_index a;
                     EvAttach a p;
                     EvSyncConfig (_config (now w'))].
Proof.
  intros Hrun.
  apply append_sub_pool_returns in Hrun
    as (p & st & rest & internal & uvloop & logging
        & Hout & Hst & Hc & Hs & Henv & Hal & Hev).
  exists p, st, rest. eexists.
  split; [exact Hout|]. split; [exact Hst|].
  split; [rewrite Hs; apply lookup_insert_eq|].
  split; [rewrite Hal; apply elem_of_union_l, elem_of_singleton; reflexivity|].
  split; [rewrite Hc; unfold get_pool_config, add_pool_conf;
          rewrite dict_get_set_eq; reflexivity|].
  split; [reflexivity|]. split; [reflexivity|]. split; [exact Henv|]. exact Hev.
Qed.

Lemma append_sub_pool_success_witness :
  let run := append_sub_pool true 7
               (Ok (102%nat, success_status ["127.0.0.1:40001"%string]))
               None None None None None None None None None None sample_world in
  snd run = Ok "127.0.0.1:40001"%string
  ∧ sub_processes (now (fst run)) !! "127.0.0.1:40001"%string = Some 102%nat.
Proof.
  intros run.
  assert (run = (fst run, Ok "127.0.0.1:40001"%string)) as Hrun
    by (vm_compute; reflexivity).
  split; [rewrite Hrun; reflexivity|].
  destruct (append_sub_pool_success true 7
              (Ok (102%nat, success_status ["127.0.0.1:40001"%string]))
              None None None None None None None None None None
              sample_world (fst run) "127.0.0.1:40001"%string Hrun)
    as (p & st & rest & conf & [= <- <-] & _ & Hp & _).
  exact Hp.
Defined.

Lemma remove_sub_pool_tables _is_windows address timeout force w p process_index :
  sub_processes (now w) !! address = Some p →
  get_process_index (_config (now w)) address = Ok process_index →
  ∃ w', remove_sub_pool _is_windows address timeout force w = (w', Ok tt)
        ∧ _config (now w') = dict_del process_index (_config (now w))
        ∧ sub_processes (now w') = delete address (sub_processes (now w)).
Proof.
  intros Hp Hidx.
  destruct (kill_sub_pool _is_windows p force w) as [w1 r] eqn:Hstop.
  pose proof (kill_sub_pool_tables _is_windows p force w) as [Hc Hs].
  pose proof (kill_sub_pool_returns _is_windows p force w) as Hr.
  rewrite Hstop in Hc, Hs, Hr. cbn [fst snd] in Hc, Hs, Hr. subst r.
  destruct (get_process_index_registered _ _ _ Hidx) as [conf Hconf].
  unfold remove_sub_pool, stop_sub_pool, handle_control_command_sync_config. run_M.
  rewrite Hp, Hidx, Hstop. cbn.
  unfold remove_pool_config, get_pool_config. rewrite Hc, Hconf. cbn.
  eexists. split; [reflexivity|]. cbn. rewrite ?Hc, ?Hs. done.
Qed.

(** X8.  Appending a worker and removing it again is a round trip on
    the two tables: if the process index and the resolved address are
    new to the Store and the address has no handle yet, then
    [remove_sub_pool] on the address [append_sub_pool] returned
    succeeds and leaves the Store and [sub_processes] exactly as they
    were before the append. *)
Theorem append_then_remove
    has_unix_server process_index outcome label internal_address external_address
    env modules suspend_sigint use_uvloop logging_conf start_method kwargs
    _is_windows timeout force w w' a e :
  dict_get process_index (_config (now w)) = None →
  get_process_index (_config (now w)) a = Raise e →
  sub_processes (now w) !! a = None →
  append_sub_pool has_unix_server process_index outcome label
    internal_address external_address env modules suspend_sigint
    use_uvloop logging_conf start_method kwargs w = (w', Ok a) →
  ∃ w'', remove_sub_pool _is_windows a timeout force w' = (w'', Ok tt)
         ∧ _config (now w'') = _config (now w)
         ∧ sub_processes (now w'') = sub_processes (now w).
Proof.
  intros Hfresh Haddr Hnone Hrun.
  apply append_sub_pool_returns in Hrun
    as (p & st & rest & internal & uvloop & logging
        & Hout & Hst & Hc & Hs & Henv & Hal & Hev).
  unfold add_pool_conf in Hc. rewrite (dict_set_fresh _ _ _ Hfresh) in Hc.
  destruct (remove_sub_pool_tables _is_windows a timeout force w' p process_index)
    as (w'' & Hrem & Hc'' & Hs'').
  - rewrite Hs. apply lookup_insert_eq.
  - rewrite Hc. eapply get_process_index_fresh; [exact Haddr|]. cbn. by left.
  - exists w''. split; [exact Hrem|]. split.
    + rewrite Hc'', Hc. apply dict_del_fresh, Hfresh.
    + rewrite Hs'', Hs. apply delete_insert_id, Hnone.
Qed.

Lemma append_then_remove_witness :
  let w' := fst (append_sub_pool true 7
               (Ok (102%nat, success_status ["127.0.0.1:40001"%string]))
               None None None None None None None None None None sample_world) in
  ∃ w'', remove_sub_pool false "127.0.0.1:40001" None false w' = (w'', Ok tt)
         ∧ _config (now w'') = _config sample_state
         ∧ sub_processes (now w'') = sub_processes sample_state.
Proof.
  intros w'.
  apply (append_then_remove true 7
           (Ok (102%nat, success_status ["127.0.0.1:40001"%string]))
           None None None None None None None None None None
           false None false sample_world w' "127.0.0.1:40001" (new_exn ValueError));
    vm_compute; reflexivity.
Defined.

(** The history of a launch: nothing when the flag cannot be read,
    else one spawn, in a state whose Store is the one of before. *)
Lemma launch_history env outcome process_index start_method w :
  let w' := fst (_pre_set_env_in_main env
                   (start_pool_in_process outcome process_index start_method) w) in
  history w' = history w
  ∨ ∃ s, history w' = history w ++ [(s, EvSpawn process_index start_method)]
         ∧ _config s = _config (now w).
Proof.
  destruct w as [s0 h]. unfold _pre_set_env_in_main, start_pool_in_process. run_M.
  destruct (enable_pre_set_env (os_environ s0)) as [enable|e]; cbn; [|by left].
  destruct (negb enable || negb (truthy_env env)); cbn;
    destruct outcome as [[p st]|e]; cbn; right; eexists; split; reflexivity.
Qed.

(** X13.  A worker appended without an address of its own is spawned
    under a placeholder: when the pool's own address was made by the
    allocator, then in the state in which the worker is spawned the
    Store entry of the new process index lists the pool's host with
    port 0 and carries the [env] of the call. *)
Theorem append_sub_pool_placeholder
    has_unix_server process_index outcome label internal_address external_address
    env modules suspend_sigint use_uvloop logging_conf start_method kwargs w
    prefix host port :
  self_external_address (now w) = format_address prefix host port →
  Py.truthy_str external_address = false →
  let w' := fst (append_sub_pool has_unix_server process_index outcome label
                   internal_address external_address env modules suspend_sigint
                   use_uvloop logging_conf start_method kwargs w) in
  ∃ new,
    history w' = history w ++ new
    ∧ ∀ s, (s, EvSpawn process_index start_method) ∈ new →
           ∃ conf, get_pool_config (_config s) process_index = Ok conf
                   ∧ Conf.external_address conf = [format_address prefix host 0]
                   ∧ Conf.env conf = env.
Proof.
  intros Hself Hext w'. subst w'.
  unfold append_sub_pool.
  set (launch := _pre_set_env_in_main env
                   (start_pool_in_process outcome process_index start_method)).
  unfold attach_sub_process, handle_control_command_sync_config.
  run_M. rewrite Hext, Hself, get_external_addresses_of_allocated.
  rewrite !format_address_zero_assoc. cbn.
  assert (∀ h : list (state * event), h = h ++ []) as Hnil
    by (intros h; by rewrite app_nil_r).
  assert (subscript_last
            (format_address prefix host port
             :: repeat (format_address prefix host 0) (Z.to_nat 1))
          = Ok (format_address prefix host 0)) as -> by reflexivity.
  cbn.
  destruct (subscript_last (get_process_indexes (_config (now w)))) as [last_index|e0];
    cbn; [|exists []; split; [apply Hnil|]; intros s Hin; by apply elem_of_nil in Hin].
  destruct (get_pool_config (_config (now w)) last_index) as [last_conf|e0];
    cbn; [|exists []; split; [apply Hnil|]; intros s Hin; by apply elem_of_nil in Hin].
  match goal with |- context [launch ?w0] => set (w1 := w0) end.
  pose proof (launch_history env outcome process_index start_method w1) as Hh.
  fold launch in Hh. cbv zeta in Hh.
  assert (∀ s, _config s = _config (now w1) →
               ∃ conf, get_pool_config (_config s) process_index = Ok conf
                       ∧ Conf.external_address conf = [format_address prefix host 0]
                       ∧ Conf.env conf = env) as Hentry.
  { intros s ->. subst w1. cbn. unfold get_pool_config, add_pool_conf.
    rewrite dict_get_set_eq. eexists. split; [reflexivity|]. done. }
  assert (∀ (tail : list (state * event)),
            (∀ s, (s, EvSpawn process_index start_method) ∉ tail) →
            ∃ new, history (fst (launch w1)) ++ tail = history w ++ new
                   ∧ ∀ s, (s, EvSpawn process_index start_method) ∈ new →
                          ∃ conf, get_pool_config (_config s) process_index = Ok conf
                                  ∧ Conf.external_address conf
                                    = [format_address prefix host 0]
                                  ∧ Conf.env conf = env) as Hgoal.
  { intros tail Htail. destruct Hh as [Hh|(s1 & Hh & Hc)]; rewrite Hh; subst w1; cbn.
    - eexists. rewrite <- List.app_assoc. split; [reflexivity|].
      intros s [Hin|Hin]%elem_of_cons; [discriminate|]. by apply Htail in Hin.
    - eexists. rewrite <- !List.app_assoc. split; [reflexivity|].
      intros s [Hin|Hin]%elem_of_cons; [discriminate|].
      apply elem_of_cons in Hin as [[= -> ]|Hin]; [by apply Hentry|].
      by apply Htail in Hin. }
  destruct (launch w1) as [w2 [[p st]|e0]] eqn:Hlaunch; cbn in Hgoal |- *.
  - destruct (subscript_first (external_addresses st)) as [resolved|e0]; cbn.
    + unfold reset_pool_external_address. run_M.
      destruct (get_pool_config (_config (now w2)) process_index); cbn.
      * rewrite <- !List.app_assoc. apply Hgoal.
        intros s Hin. cbn in Hin.
        repeat (apply elem_of_cons in Hin as [Hin|Hin]; [discriminate|]).
        by apply elem_of_nil in Hin.
      * apply Hgoal. intros s Hin.
        repeat (apply elem_of_cons in Hin as [Hin|Hin]; [discriminate|]).
        by apply elem_of_nil in Hin.
    + rewrite (Hnil (history w2)). apply Hgoal. intros s Hin. by apply elem_of_nil in Hin.
  - rewrite (Hnil (history w2)). apply Hgoal. intros s Hin. by apply elem_of_nil in Hin.
Qed.

Lemma append_sub_pool_placeholder_witness :
  let w' := fst (append_sub_pool true 7
               (Ok (102%nat, success_status ["127.0.0.1:40001"%string]))
               None None None None None None None None None None sample_world) in
  ∃ new,
    history w' = history sample_world ++ new
    ∧ ∀ s, (s, EvSpawn 7 None) ∈ new →
           ∃ conf, get_pool_config (_config s) 7 = Ok conf
                   ∧ Conf.external_address conf = [format_address "" "127.0.0.1" 0]
                   ∧ Conf.env conf = None.
Proof.
  exact (append_sub_pool_placeholder true 7
           (Ok (102%nat, success_status ["127.0.0.1:40001"%string]))
           None None None None None None None None None None sample_world
           "" "127.0.0.1" 5000 eq_refl eq_refl).
Defined.

(** ** More on recovery and on waiting for launches *)

Lemma start_sub_pool_tables outcome config process_index start_method w :
  let w' := fst (start_sub_pool outcome config process_index start_method w) in
  _config (now w') = _config (now w)
  ∧ sub_processes (now w') = sub_processes (now w).
Proof.
  unfold start_sub_pool. run_M.
  destruct (get_pool_config config process_index) as [conf|e]; cbn; [|done].
  apply launch_tables.
Qed.

(** The handle a launch returns is new: its process is running and
    its [returncode] is [None]. *)
Lemma start_sub_pool_fresh_handle outcome config process_index start_method w w1 p st :
  start_sub_pool outcome config process_index start_method w = (w1, Ok (p, st)) →
  p ∈ alive (now w1) ∧ p ∉ reaped (now w1).
Proof.
  destruct w as [s h].
  unfold start_sub_pool, _pre_set_env_in_main, start_pool_in_process. run_M.
  destruct (get_pool_config config process_index) as [conf|e]; cbn; [|discriminate].
  destruct (enable_pre_set_env (os_environ s)) as [enable|e]; cbn; [|discriminate].
  destruct (negb enable || negb (truthy_env (Conf.env conf))); cbn;
    destruct outcome as [[p' st']|e]; cbn; try discriminate;
    intros [= <- <- <-]; cbn;
    (split; [apply elem_of_union_l, elem_of_singleton; reflexivity
            |apply not_elem_of_difference; right; by apply elem_of_singleton]).
Qed.

(** X9.  A recovery whose respawn fails changes neither table: the
    dead worker's handle stays where it was and the Store is as
    before, and no creation message is sent.  If the new worker
    reported failure it has been spawned with the [spawn] method and
    killed, and its error is raised with its traceback; if the launch
    itself raised, that exception is the outcome. *)
Theorem recover_sub_pool_respawn_failure outcome address w process_index :
  get_process_index (_config (now w)) address = Ok process_index →
  (∀ w1 p st e,
     start_sub_pool outcome (_config (now w)) process_index (Some "spawn"%string) w
     = (w1, Ok (p, st)) →
     status st = Some 1 → error st = Some e →
     ∃ w', recover_sub_pool outcome address w
           = (w', Raise (with_traceback e (traceback st)))
           ∧ sub_processes (now w') = sub_processes (now w)
           ∧ _config (now w') = _config (now w)
           ∧ (p ∉ alive (now w'))
           ∧ events w' = events w ++ [EvSpawn process_index (Some "spawn"%string);
                                      EvSignal SIGKILL p])
  ∧ (∀ w1 e,
       start_sub_pool outcome (_config (now w)) process_index (Some "spawn"%string) w
       = (w1, Raise e) →
       recover_sub_pool outcome address w = (w1, Raise e)
       ∧ sub_processes (now w1) = sub_processes (now w)
       ∧ _config (now w1) = _config (now w)).
Proof.
  intros Hidx. split.
  - intros w1 p st e Hstart Hst He.
    destruct (start_sub_pool_returns _ _ _ _ _ _ _ _ Hstart)
      as (_ & Hev & Hc & Hs & _).
    destruct (start_sub_pool_fresh_handle _ _ _ _ _ _ _ _ Hstart) as [_ Hfresh].
    unfold recover_sub_pool, wait_sub_pools_ready, Process_kill. run_M.
    rewrite Hidx. cbn. rewrite Hstart. cbn.
    rewrite bool_decide_eq_true_2 by exact Hst. rewrite He. cbn.
    unfold bind. rewrite _send_signal_run. unfold sent_through, sending.
    rewrite bool_decide_eq_false_2 by exact Hfresh. cbn.
    eexists. split; [reflexivity|]. cbn.
    rewrite deliver_sub_processes, deliver_config.
    split; [exact Hs|]. split; [exact Hc|]. split.
    + unfold deliver. cbn. apply not_elem_of_difference. right.
      apply elem_of_singleton. reflexivity.
    + unfold events in *. cbn. rewrite map_app, Hev, <- List.app_assoc. reflexivity.
  - intros w1 e Hstart.
    pose proof (start_sub_pool_tables outcome (_config (now w)) process_index
                  (Some "spawn"%string) w) as [Hc Hs].
    rewrite Hstart in Hc, Hs. cbn [fst] in Hc, Hs.
    unfold recover_sub_pool, wait_sub_pools_ready. run_M.
    rewrite Hidx. cbn. rewrite Hstart. cbn. done.
Qed.

Lemma recover_sub_pool_respawn_failure_witness :
  let boom := Exn (UserError 1) (Some ["create"%string]) in
  ∃ w', recover_sub_pool (Ok (102%nat, failure_status boom)) "127.0.0.1:5001" sample_world
        = (w', Raise boom)
        ∧ sub_processes (now w') = sub_processes sample_state
        ∧ _config (now w') = _config sample_state
        ∧ (102%nat ∉ alive (now w'))
        ∧ events w' = events sample_world
                      ++ [EvSpawn 1 (Some "spawn"%string); EvSignal SIGKILL 102%nat].
Proof.
  intros boom.
  destruct (recover_sub_pool_respawn_failure (Ok (102%nat, failure_status boom))
              "127.0.0.1:5001" sample_world 1 eq_refl) as [H _].
  apply (H (fst (start_sub_pool (Ok (102%nat, failure_status boom))
                   (_config sample_state) 1 (Some "spawn"%string) sample_world))
           102%nat (failure_status boom) boom);
    [vm_compute; reflexivity | reflexivity | reflexivity].
Defined.

(** X10.  The loop of [wait_sub_pools_ready] can break off in two
    ways, and in both nothing is killed, not even a worker that came
    earlier in the batch and had reported failure: when awaiting a
    launch raises, that exception is let through at once; and when a
    launch reports failure without an error object, the call ends
    with an [AttributeError].  The launches that come after are not
    awaited. *)
Theorem wait_sub_pools_ready_breaks_off results rest w :
  Forall carries_error results →
  (∀ e, wait_sub_pools_ready (map Ok results ++ Raise e :: rest) w = (w, Raise e))
  ∧ (∀ p st, status st = Some 1 → error st = None →
             wait_sub_pools_ready (map Ok results ++ Ok (p, st) :: rest) w
             = (w, raise AttributeError)).
Proof.
  intros Hwf. split.
  - intros e. unfold wait_sub_pools_ready. run_M.
    rewrite (wait_sub_pools_ready_loop_app _ _ _ _ _ Hwf). reflexivity.
  - intros p st Hst He. unfold wait_sub_pools_ready. run_M.
    rewrite (wait_sub_pools_ready_loop_app _ _ _ _ _ Hwf). cbn.
    rewrite bool_decide_eq_true_2 by exact Hst. rewrite He. reflexivity.
Qed.

Lemma wait_sub_pools_ready_breaks_off_witness :
  let boom := Exn (UserError 1) (Some ["create"%string]) in
  wait_sub_pools_ready
    [Ok (201%nat, failure_status boom); Raise (new_exn OSError);
     Ok (203%nat, success_status ["127.0.0.1:40003"%string])] sample_world
  = (sample_world, Raise (new_exn OSError)).
Proof.
  intros boom.
  apply (proj1 (wait_sub_pools_ready_breaks_off [(201%nat, failure_status boom)]
           [Ok (203%nat, success_status ["127.0.0.1:40003"%string])] sample_world
           ltac:(repeat constructor; intros _; cbn; eauto))).
Defined.

(** ** More on [_pre_set_env_in_main] *)

(** X11.  With the flag on and a non-empty [env], the worker is
    spawned while [env] is applied to [os.environ]: at that moment
    every variable of [env] has the value [env] gives it and every
    other variable has the value it had; once [start_sub_pool] is
    over, whether the launch returned or raised, [os.environ] is what
    it was before. *)
Theorem start_sub_pool_spawns_under_env outcome config process_index start_method w conf :
  get_pool_config config process_index = Ok conf →
  enable_pre_set_env (os_environ (now w)) = Ok true →
  truthy_env (Conf.env conf) = true →
  let w' := fst (start_sub_pool outcome config process_index start_method w) in
  ∃ s, history w' = history w ++ [(s, EvSpawn process_index start_method)]
       ∧ (∀ k, os_environ s !! k
               = match default ∅ (Conf.env conf) !! k with
                 | Some v => Some v
                 | None => os_environ (now w) !! k
                 end)
       ∧ os_environ (now w') = os_environ (now w).
Proof.
  intros Hconf Hen Henv w'. subst w'. destruct w as [s0 h].
  unfold start_sub_pool, _pre_set_env_in_main, start_pool_in_process. run_M.
  rewrite Hconf. cbn. rewrite Hen, Henv. cbn.
  assert (∀ k, environ_update (Conf.env conf) (os_environ s0) !! k
               = match default ∅ (Conf.env conf) !! k with
                 | Some v => Some v
                 | None => os_environ s0 !! k
                 end) as Hlook.
  { intros k. unfold environ_update. rewrite lookup_union.
    destruct (default ∅ (Conf.env conf) !! k) as [v|]; cbn.
    - destruct (os_environ s0 !! k); reflexivity.
    - destruct (os_environ s0 !! k); reflexivity. }
  destruct outcome as [[p st]|e]; cbn; eexists; (split; [reflexivity|]); cbn;
    (split; [exact Hlook | reflexivity]).
Qed.

Lemma start_sub_pool_spawns_under_env_witness :
  let conf := Conf.set_external_address ["127.0.0.1:0"%string]
                {| Conf.label := None; Conf.internal_address := None;
                   Conf.external_address := [];
                   Conf.env := Some {[ "CUDA_VISIBLE_DEVICES"%string := "1"%string ]};
                   Conf.modules := None; Conf.suspend_sigint := None;
                   Conf.use_uvloop := None; Conf.logging_conf := None;
                   Conf.kwargs := None |} in
  let w := World (set_os_environ {[ "XOSCAR_PRE_SET_ENV"%string := "1"%string ]}
                    sample_state) [] in
  let w' := fst (start_sub_pool (Raise (new_exn OSError)) [(1, conf)] 1 None w) in
  os_environ (now w') = {[ "XOSCAR_PRE_SET_ENV"%string := "1"%string ]}.
Proof.
  intros conf w w'.
  destruct (start_sub_pool_spawns_under_env (Raise (new_exn OSError)) [(1, conf)] 1
              None w conf eq_refl eq_refl eq_refl) as (s & _ & _ & H).
  exact H.
Defined.

(** X12.  A flag value that is not an integer makes every launch
    fail before anything is spawned: [start_sub_pool] raises
    [ValueError] and leaves the world as it was, also for a worker
    that has no [env] at all. *)
Theorem start_sub_pool_bad_flag outcome config process_index start_method w conf v :
  get_pool_config config process_index = Ok conf →
  os_environ (now w) !! "XOSCAR_PRE_SET_ENV"%string = Some v →
  Py.int_of_str v = None →
  start_sub_pool outcome config process_index start_method w = (w, raise ValueError).
Proof.
  intros Hconf Hv Hint. unfold start_sub_pool, _pre_set_env_in_main. run_M.
  rewrite Hconf. cbn. unfold enable_pre_set_env. rewrite Hv, Hint. reflexivity.
Qed.

Lemma start_sub_pool_bad_flag_witness :
  let w := World (set_os_environ {[ "XOSCAR_PRE_SET_ENV"%string := "true"%string ]}
                    sample_state) [] in
  start_sub_pool (Ok (102%nat, success_status ["127.0.0.1:5001"%string]))
    (_config sample_state) 1 (Some "spawn"%string) w
  = (w, raise ValueError).
Proof.
  intros w.
  exact (start_sub_pool_bad_flag _ (_config sample_state) 1 _ w
           (sample_conf "127.0.0.1:5001") "true" eq_refl eq_refl eq_refl).
Defined.

(** ** More on concurrent launches *)

Module LaunchOrder.
Import Launches.

Lemma launches_serialize_witness :
  (length (List.filter holds_lock
     (tasks (run [0; 1; 0; 1; 1]%nat two_launches))) ≤ 1)%nat.
Proof.
  apply (LaunchFacts.launches_serialize [0; 1; 0; 1; 1]%nat
           {[ "XOSCAR_PRE_SET_ENV"%string := "1"%string ]}).
  repeat constructor.
Defined.

Lemma run_app schedule1 schedule2 sys :
  run (schedule1 ++ schedule2) sys = run schedule2 (run schedule1 sys).
Proof.
  revert sys. induction schedule1 as [|i schedule1 IH]; intros sys; [reflexivity|].
  cbn. apply IH.
Qed.

(** A launch that gets both its turns while nobody holds or awaits
    the lock ends, with [os.environ] and the lock as they were. *)
Lemma run_alone E l i t :
  l !! i = Some t →
  at_ t = Entry →
  ∃ failed,
    run [i; i] {| environ := E; locked := false; waiters := []; tasks := l |}
    = {| environ := E; locked := false; waiters := [];
         tasks := <[i := at_pc (Finished failed) t]> l |}.
Proof.
  intros Ht Hat.
  assert (i < length l)%nat as Hi by (eapply lookup_lt_Some; exact Ht).
  unfold run, step. cbn. rewrite Ht. cbn. rewrite Hat.
  destruct (enable_pre_set_env E) as [enable|x]; cbn.
  - destruct (negb enable || negb (truthy_env (env t))); cbn.
    + rewrite list_lookup_insert_eq by exact Hi. cbn.
      unfold set_task. cbn. rewrite list_insert_insert_eq. eexists. reflexivity.
    + rewrite list_lookup_insert_eq by exact Hi. cbn.
      rewrite list_insert_insert_eq. eexists. reflexivity.
  - unfold set_task. cbn. rewrite list_lookup_insert_eq by exact Hi. cbn.
    eexists. reflexivity.
Qed.

Lemma one_after_another_cons first n :
  one_after_another first (S n) = [first; first] ++ one_after_another (S first) n.
Proof. reflexivity. Qed.

Lemma run_one_after_another E done todo :
  Forall (λ t, is_finished t = true) done →
  Forall (λ t, at_ t = Entry) todo →
  let final := run (one_after_another (length done) (length todo))
                 {| environ := E; locked := false; waiters := [];
                    tasks := done ++ todo |} in
  environ final = E ∧ locked final = false
  ∧ Forall (λ t, is_finished t = true) (tasks final).
Proof.
  intros Hdone Htodo. revert done Hdone.
  induction Htodo as [|t todo Ht _ IH]; intros done Hdone.
  - cbn. rewrite app_nil_r. done.
  - cbn [length]. rewrite one_after_another_cons. cbv zeta. rewrite run_app.
    destruct (run_alone E (done ++ t :: todo) (length done) t
                (list_lookup_middle _ _ _ _ eq_refl) Ht) as [failed ->].
    rewrite insert_app_r_alt by lia. rewrite Nat.sub_diag. cbn [insert list_insert].
    specialize (IH (done ++ [at_pc (Finished failed) t])).
    rewrite length_app, Nat.add_1_r, <- List.app_assoc in IH. apply IH.
    apply Forall_app. split; [exact Hdone|]. repeat constructor.
Qed.

(** X14.  Launches that do not overlap leave [os.environ] alone:
    when each launch gets both its turns before the next one starts,
    then after the last one [os.environ] is what it was at the start,
    the lock is free and every launch has ended, whatever the flag,
    the [env] of each launch and the outcome of each spawn. *)
Theorem launches_one_after_another_restore environ0 ts :
  Forall (λ t, at_ t = Entry) ts →
  let final := run (one_after_another 0 (length ts)) (start environ0 ts) in
  environ final = environ0 ∧ locked final = false
  ∧ Forall (λ t, is_finished t = true) (tasks final).
Proof.
  intros Hentry. exact (run_one_after_another environ0 [] ts (Forall_nil_2 _) Hentry).
Qed.

Lemma launches_one_after_another_restore_witness :
  environ (run [0; 0; 1; 1]%nat two_launches) = environ two_launches.
Proof.
  exact (proj1 (launches_one_after_another_restore
                  {[ "XOSCAR_PRE_SET_ENV"%string := "1"%string ]}
                  (tasks two_launches) ltac:(repeat constructor))).
Defined.

End LaunchOrder.

(** ** More on the worker bootstrap *)

Lemma environ_update_lookup env (environ : gmap string string) k :
  environ_update env environ !! k
  = match default ∅ env !! k with
    | Some v => Some v
    | None => environ !! k
    end.
Proof.
  unfold environ_update. rewrite lookup_union.
  destruct (default ∅ env !! k), (environ !! k); reflexivity.
Qed.

(** X15.  The worker applies the [env] of its Store entry to its own
    [os.environ] before it creates the pool: when the pool is created
    every variable of [env] has the value [env] gives it and every
    other variable has the value it had, and this is still the
    environment when [_create_sub_pool] is over. *)
Theorem _create_sub_pool_applies_env
    created started joined actor_config process_index main_pool_pid w conf :
  get_pool_config actor_config process_index = Ok conf →
  let w' := fst (_create_sub_pool created started joined actor_config
                   process_index main_pool_pid w) in
  ∃ s rest,
    history w' = history w ++ (s, WvCreate process_index main_pool_pid) :: rest
    ∧ (∀ k, worker_environ s !! k
            = match default ∅ (Conf.env conf) !! k with
              | Some v => Some v
              | None => worker_environ (now w) !! k
              end)
    ∧ worker_environ (now w') = worker_environ s.
Proof.
  intros Hconf w'. subst w'. destruct w as [s0 h].
  unfold _create_sub_pool, status_queue_put. run_M. rewrite Hconf. cbn.
  assert ((∀ k, worker_environ s0 !! k
                = match default ∅ (Conf.env conf) !! k with
                  | Some v => Some v
                  | None => worker_environ s0 !! k
                  end) ∨ truthy_env (Conf.env conf) = true) as Hcase.
  { destruct (Conf.env conf) as [m|] eqn:Hm; cbn; [|left; intros k; by rewrite lookup_empty].
    case_bool_decide as He; [|by right]. left. intros k. subst m.
    by rewrite lookup_empty. }
  destruct (truthy_env (Conf.env conf)) eqn:Ht; cbn;
    (destruct created as [conf'|e]; cbn; [destruct started as [[]|e]; cbn|]);
    rewrite <- ?List.app_assoc; cbn;
    do 2 eexists; (split; [reflexivity|]); cbn;
    (split; [|reflexivity]);
    first [ intros k; apply environ_update_lookup
          | destruct Hcase as [H|H]; [exact H | discriminate] ].
Qed.

Lemma _create_sub_pool_applies_env_witness :
  let conf := Conf.set_external_address ["127.0.0.1:0"%string]
                {| Conf.label := None; Conf.internal_address := None;
                   Conf.external_address := [];
                   Conf.env := Some {[ "CUDA_VISIBLE_DEVICES"%string := "1"%string ]};
                   Conf.modules := None; Conf.suspend_sigint := None;
                   Conf.use_uvloop := None; Conf.logging_conf := None;
                   Conf.kwargs := None |} in
  worker_environ (now (fst (_create_sub_pool (Ok conf) (Ok tt) (Ok tt) [(1, conf)] 1
                              4242%nat fresh_worker)))
    !! "CUDA_VISIBLE_DEVICES"%string = Some "1"%string.
Proof.
  intros conf.
  destruct (_create_sub_pool_applies_env (Ok conf) (Ok tt) (Ok tt) [(1, conf)] 1
              4242%nat fresh_worker conf eq_refl) as (s & rest & _ & Hk & ->).
  rewrite Hk. reflexivity.
Defined.

Lemma with_own_traceback e : with_traceback e (exn_traceback e) = e.
Proof. destruct e; reflexivity. Qed.

(** X16.  The status a worker puts on its queue is one that
    [wait_sub_pools_ready] can read.  If the bootstrap reported
    success, waiting for that launch returns the handle and the
    reported addresses and kills nothing; if it reported failure,
    waiting calls [kill] on the handle and raises the very exception,
    traceback included, that ended the bootstrap.  Through a handle
    that does not know its process gone, as that of a fresh launch,
    [kill] sends [SIGKILL] and the worker is not running afterwards. *)
Theorem startup_handshake
    created started joined actor_config process_index main_pool_pid ww p w :
  let worker_run := _create_sub_pool created started joined actor_config
                      process_index main_pool_pid ww in
  ∃ s,
    status_queue (now (fst worker_run)) = status_queue (now ww) ++ [Some s]
    ∧ ((status s = Some 0
        ∧ wait_sub_pools_ready [Ok (p, s)] w
          = (w, Ok ([p], [external_addresses s])))
       ∨ (∃ e w',
            status s = Some 1
            ∧ snd worker_run = Raise e
            ∧ wait_sub_pools_ready [Ok (p, s)] w = (w', Raise e)
            ∧ events w' = events w ++ kill_signals (now w) [p]
            ∧ (p ∉ reaped (now w) →
               events w' = events w ++ [EvSignal SIGKILL p]
               ∧ p ∉ alive (now w')))).
Proof.
  intros worker_run. subst worker_run. destruct ww as [s0 h].
  assert (∀ e, ∃ w',
    wait_sub_pools_ready [Ok (p, failure_status e)] w = (w', Raise e)
    ∧ events w' = events w ++ kill_signals (now w) [p]
    ∧ (p ∉ reaped (now w) →
       events w' = events w ++ [EvSignal SIGKILL p]
       ∧ p ∉ alive (now w'))) as Hfail.
  { intros e. unfold wait_sub_pools_ready, Process_kill. run_M.
    rewrite with_own_traceback, bool_decide_eq_true_2 by reflexivity.
    cbn. unfold bind. rewrite _send_signal_run. cbn.
    eexists. split; [reflexivity|].
    assert (events (World (sent_through SIGKILL p (now w))
                      (history w ++ sending SIGKILL p (now w)))
            = events w ++ kill_signals (now w) [p]) as Hev.
    { unfold events. cbn. rewrite map_app, kill_signals_cons.
      unfold kill_signals. cbn. rewrite app_nil_r. reflexivity. }
    split; [exact Hev|]. intros Hfresh. split.
    - rewrite Hev, kill_signals_fresh by (by constructor). reflexivity.
    - cbn. rewrite sent_through_kill_alive. tauto. }
  unfold _create_sub_pool, status_queue_put. run_M.
  destruct (get_pool_config actor_config process_index) as [conf|e]; cbn.
  - destruct (truthy_env (Conf.env conf)); cbn;
      (destruct created as [conf'|e]; cbn; [destruct started as [[]|e]; cbn|]).
    all: eexists; (split; [reflexivity|]).
    all: first
      [ left; split; reflexivity
      | right; destruct (Hfail e) as (w' & Hw & Hev & Hal); exists e, w';
        split; [reflexivity|]; split; [reflexivity|];
        split; [exact Hw|]; split; [exact Hev | exact Hal] ].
  - eexists; (split; [reflexivity|]). right.
    destruct (Hfail e) as (w' & Hw & Hev & Hal). exists e, w'.
    split; [reflexivity|]. split; [reflexivity|].
    split; [exact Hw|]. split; [exact Hev | exact Hal].
Qed.

(** ** Process-wide helpers *)

(** X17.  [_terminate_children] never raises and skips no child: it
    calls [terminate] on every active child, in order, each from the
    world the previous call left, also after a call that raised. *)
Theorem _terminate_children_all active_children terminate w :
  _terminate_children active_children terminate w
  = (foldl (λ w c, fst (terminate c w)) w active_children, Ok tt).
Proof.
  unfold _terminate_children. revert w.
  induction active_children as [|c cs IH]; intros w; [reflexivity|].
  cbn [for_each foldl]. unfold bind at 1. unfold try_except, bind, attempt.
  destruct (terminate c w) as [w1 [[]|e]]; cbn; apply IH.
Qed.

Module SpawnHookFacts.
Import SpawnHook.

Lemma patch_patched h :
  _indigen_patched (get_preparation_data h) = true →
  _patch_spawn_get_preparation_data h = h.
Proof. intros H. unfold _patch_spawn_get_preparation_data. rewrite H. reflexivity. Qed.

(** X18.  Patching the spawn hook is idempotent: however often
    [_patch_spawn_get_preparation_data] runs, the library's function
    is wrapped once and never wrapped again. *)
Theorem patch_once n h :
  (1 ≤ n)%nat →
  Nat.iter n _patch_spawn_get_preparation_data h
  = _patch_spawn_get_preparation_data h
  ∧ (get_preparation_data h = Raw →
     get_preparation_data (Nat.iter n _patch_spawn_get_preparation_data h)
     = Patched Raw).
Proof.
  intros Hn.
  assert (_indigen_patched
            (get_preparation_data (_patch_spawn_get_preparation_data h)) = true) as Hp.
  { unfold _patch_spawn_get_preparation_data.
    destruct (_indigen_patched (get_preparation_data h)) eqn:H; cbn; [exact H|reflexivity]. }
  assert (Nat.iter n _patch_spawn_get_preparation_data h
          = _patch_spawn_get_preparation_data h) as Hiter.
  { destruct n as [|n]; [lia|]. clear Hn. induction n as [|n IH]; [reflexivity|].
    change (Nat.iter (S (S n)) _patch_spawn_get_preparation_data h)
      with (_patch_spawn_get_preparation_data
              (Nat.iter (S n) _patch_spawn_get_preparation_data h)).
    rewrite IH. apply patch_patched, Hp. }
  split; [exact Hiter|]. intros Hraw. rewrite Hiter.
  unfold _patch_spawn_get_preparation_data. rewrite Hraw. reflexivity.
Qed.

Lemma patch_once_witness :
  get_preparation_data
    (Nat.iter 3 _patch_spawn_get_preparation_data
       {| value := None; get_preparation_data := Raw |})
  = Patched Raw.
Proof.
  exact (proj2 (patch_once 3 {| value := None; get_preparation_data := Raw |}
                  ltac:(lia)) eq_refl).
Defined.

(** X19.  Once the hook is patched, preparation data asked for
    inside [_suspend_init_main] has neither [init_main_from_name] nor
    [init_main_from_path] and is otherwise what the library returns,
    so a spawned worker does not import the user's main module; and
    when the block is left, with or without an exception, the flag is
    [False], whatever it was before. *)
Theorem suspended_preparation_data {E} h (history0 : list (hook * E)) ret :
  _indigen_patched (get_preparation_data h) = false →
  let w := World (_patch_spawn_get_preparation_data h) history0 in
  (∃ w' data,
     _suspend_init_main (preparation_data ret) w = (w', Ok data)
     ∧ data !! "init_main_from_name"%string = None
     ∧ data !! "init_main_from_path"%string = None
     ∧ (∀ k, k ≠ "init_main_from_name"%string → k ≠ "init_main_from_path"%string →
             data !! k = ret !! k)
     ∧ value (now w') = Some false)
  ∧ (∀ A (body : M hook E A),
       value (now (fst (_suspend_init_main body w))) = Some false).
Proof.
  intros Hraw w. subst w. split.
  - unfold _suspend_init_main, preparation_data, _patch_spawn_get_preparation_data.
    rewrite Hraw. run_M.
    destruct (get_preparation_data h) as [|f]; [|discriminate]. cbn.
    do 2 eexists. split; [reflexivity|].
    split; [rewrite lookup_delete_ne by done; apply lookup_delete_eq|].
    split; [apply lookup_delete_eq|]. split; [|reflexivity].
    intros k H1 H2. rewrite !lookup_delete_ne by done. reflexivity.
  - intros A body. unfold _suspend_init_main. run_M.
    destruct (body _) as [w1 r]. reflexivity.
Qed.

Lemma suspended_preparation_data_witness :
  let ret : gmap string string :=
    {[ "init_main_from_path"%string := "/home/user/train.py"%string;
       "name"%string := "IndigenActorPool1"%string ]} in
  ∃ w' data,
    _suspend_init_main (E := unit) (preparation_data ret)
      (World (_patch_spawn_get_preparation_data
                {| value := None; get_preparation_data := Raw |}) [])
    = (w', Ok data)
    ∧ data !! "init_main_from_path"%string = None
    ∧ data !! "name"%string = Some "IndigenActorPool1"%string.
Proof.
  intros ret.
  destruct (suspended_preparation_data (E := unit)
              {| value := None; get_preparation_data := Raw |} [] ret eq_refl)
    as [(w' & data & Hrun & _ & Hpath & Hother & _) _].
  exists w', data. split; [exact Hrun|]. split; [exact Hpath|].
  rewrite (Hother "name"%string) by discriminate. reflexivity.
Defined.

End SpawnHookFacts.
